(** * rest_file_command: the request engine and the command registry

    A shallow embedding of
    [custom_components/rest_file_command/__init__.py].

    The handler built by [async_register_rest_command] talks to four
    collaborators that live outside the component: the template engine,
    the filesystem, the shared HTTP client session and the logger.  They
    are gathered in the record [Env]; every call the handler makes to one
    of them is appended to a trace, so that statements such as "no request
    is sent" or "the body is not read" are statements about that trace.
    Python exceptions are values of [Exception]; a [try]/[except] is the
    combinator [try_except], which tries its clauses in source order. *)

From stdpp Require Import gmap strings list fin_maps.
From Stdlib Require Import ZArith Lia.

Local Open Scope Z_scope.
Local Open Scope string_scope.

(** ** Module-level constants *)

Definition DOMAIN : string := "rest_file_command".
Definition DEFAULT_TIMEOUT : Z := 10.
Definition DEFAULT_VERIFY_SSL : bool := true.
Definition CONF_FILE : string := "file".

(** [homeassistant.const.SERVICE_RELOAD], [aiohttp.hdrs.CONTENT_TYPE] and
    [http.HTTPStatus.BAD_REQUEST]: imported by the component, with the
    values those libraries give them. *)
Definition SERVICE_RELOAD : string := "reload".
Definition CONTENT_TYPE : string := "Content-Type".
Definition BAD_REQUEST : Z := 400.

(** [SUPPORT_REST_METHODS]: the schema admits no other method. *)
Inductive Method := http_get | http_patch | http_post | http_put | http_delete.
Definition DEFAULT_METHOD : Method := http_post.

(** ** Exceptions *)

(** A template is kept as its source text; rendering belongs to [Env]. *)
Definition Template := string.

(** The exceptions that occur in the component.  The first eleven come out of
    collaborators; the last two are the two ways the handler itself builds
    a [HomeAssistantError]: from a message, or from a translation key with
    its placeholders. *)
Inductive Exception :=
| TemplateError
| TypeError
| JSONDecodeError
| AttributeError
| UnicodeDecodeError
| TimeoutError
| ServerTimeoutError
| ClientError
| OSError
| KeyError
| ValueError
| HomeAssistantError_message (message : string)
| HomeAssistantError_translated
    (translation_domain translation_key : string)
    (translation_placeholders : list (string * string)).

(** The classes named in the handler's [except] clauses. *)
Inductive ExcClass :=
| cls_JSONDecodeError
| cls_AttributeError
| cls_UnicodeDecodeError
| cls_TimeoutError
| cls_ClientError.

(** [isinstance]: aiohttp's [ServerTimeoutError] derives from both
    [ClientError] (through [ServerConnectionError]) and [TimeoutError]. *)
Definition isinstance (e : Exception) (c : ExcClass) : bool :=
  match c, e with
  | cls_JSONDecodeError, JSONDecodeError => true
  | cls_AttributeError, AttributeError => true
  | cls_UnicodeDecodeError, UnicodeDecodeError => true
  | cls_TimeoutError, (TimeoutError | ServerTimeoutError) => true
  | cls_ClientError, (ClientError | ServerTimeoutError) => true
  | _, _ => false
  end.

(** ** Values exchanged with the collaborators *)

(** [open(file_path, "rb")]: a handle on the file at [handle_path]. *)
Record FileHandle := OpenedRB { handle_path : string }.

Record BasicAuth := { login : string; password : string }.

(** The keyword arguments of [getattr(websession, method)(...)], together
    with the method and with the [verify_ssl] flag that selected the
    session. *)
Record Request := {
  req_verify_ssl : bool;
  req_method : Method;
  req_url : string;
  req_data : list (string * FileHandle);
  req_auth : option BasicAuth;
  req_headers : option (gmap string string);
  req_timeout : Z
}.

(** What awaiting a body read gives: the decoded value or an exception. *)
Definition Content := string.

Record Response := {
  status : Z;
  url : string;
  content_type : string;
  json : Exception + Content;
  text : Exception + Content
}.

(** What entering the request's [async with] gives.  [body_released] says
    whether the client closed the file object it was handed in [data]: the
    client closes a file payload once it has written it out, and leaves it
    alone when the request fails earlier. *)
Record TransportReply := {
  reply : Exception + Response;
  body_released : bool
}.

Inductive Level := DEBUG | WARNING | ERROR.

Inductive LogArg :=
| arg_str (s : string)
| arg_int (n : Z)
| arg_exc (e : Exception).

(** One entry per call the handler makes to a collaborator. *)
Inductive Event :=
| ev_render (t : Template)
| ev_exists (path : option string)
| ev_open (path : option string)
| ev_request (r : Request)
| ev_log (level : Level) (format : string) (args : list LogArg)
| ev_json
| ev_text.

(** [service.data] and [service.return_response]. *)
Record ServiceCall := {
  data : gmap string string;
  return_response : bool
}.

(** The dictionary the handler returns when a response is wanted. *)
Record ResponseDict := {
  rd_content : Content;
  rd_status : Z
}.

(** [ServiceResponse]: a dictionary or [None]. *)
Definition ServiceResponse := option ResponseDict.

Record Env := {
  async_render : Template -> gmap string string -> Exception + string;
  path_exists : string -> bool;
  open_rb : string -> Exception + FileHandle;
  transport : Request -> TransportReply
}.

(** ** The monad of the handler *)

Record State := {
  trace : list Event;
  open_files : list FileHandle
}.

Definition initial : State := {| trace := []; open_files := [] |}.

Inductive Outcome (A : Type) :=
| Return (a : A)
| Raise (e : Exception).
Arguments Return {A} a.
Arguments Raise {A} e.

Definition M (A : Type) : Type := State -> Outcome A * State.

Definition ret {A} (a : A) : M A := fun s => (Return a, s).

Definition raise {A} (e : Exception) : M A := fun s => (Raise e, s).

Definition bind {A B} (m : M A) (k : A -> M B) : M B :=
  fun s =>
    match m s with
    | (Return a, s') => k a s'
    | (Raise e, s') => (Raise e, s')
    end.

Notation "'let*' x ':=' m 'in' k" := (bind m (fun x => k))
  (at level 10, x name, m at level 100, k at level 200, only parsing).
Notation "m ';;' k" := (bind m (fun _ => k))
  (at level 100, k at level 200, right associativity, only parsing).

Definition emit (e : Event) : M unit :=
  fun s => (Return tt, {| trace := trace s ++ [e]; open_files := open_files s |}).

(** Lift the answer of a collaborator. *)
Definition answer {A} (r : Exception + A) : M A :=
  match r with
  | inl e => raise e
  | inr a => ret a
  end.

(** One [except] clause: the classes it names and its body. *)
Definition Clause (A : Type) : Type := list ExcClass * (Exception -> M A).

Fixpoint dispatch {A} (clauses : list (Clause A)) (e : Exception) : M A :=
  match clauses with
  | [] => raise e
  | (classes, body) :: rest =>
      if existsb (isinstance e) classes then body e else dispatch rest e
  end.

(** [try: m except ...]: an exception of [m] goes to the first clause that
    matches it, or on to the caller; an exception raised by a clause's body
    is not offered to the other clauses. *)
Definition try_except {A} (m : M A) (clauses : list (Clause A)) : M A :=
  fun s =>
    match m s with
    | (Return a, s') => (Return a, s')
    | (Raise e, s') => dispatch clauses e s'
    end.

(** ** Calls to the collaborators *)

Definition render (env : Env) (t : Template) (variables : gmap string string)
  : M string :=
  emit (ev_render t);; answer (async_render env t variables).

(** [os.path.exists]: it swallows [OSError] and [ValueError] only, so the
    [TypeError] that [os.stat] raises on [None] comes through. *)
Definition os_path_exists (env : Env) (path : option string) : M bool :=
  emit (ev_exists path);;
  match path with
  | None => raise TypeError
  | Some p => ret (path_exists env p)
  end.

Definition register_open (h : FileHandle) : M unit :=
  fun s => (Return tt, {| trace := trace s; open_files := h :: open_files s |}).

Definition py_open_rb (env : Env) (path : option string) : M FileHandle :=
  emit (ev_open path);;
  match path with
  | None => raise TypeError
  | Some p => let* h := answer (open_rb env p) in register_open h;; ret h
  end.

Definition handle_eqb (h1 h2 : FileHandle) : bool :=
  String.eqb (handle_path h1) (handle_path h2).

(** The client closing the file objects of the body it was given. *)
Definition release (handles : list FileHandle) : M unit :=
  fun s =>
    (Return tt,
     {| trace := trace s;
        open_files :=
          List.filter (fun h => negb (existsb (handle_eqb h) handles))
            (open_files s) |}).

Definition send (env : Env) (r : Request) : M Response :=
  emit (ev_request r);;
  let t := transport env r in
  (if body_released t then release (map snd (req_data r)) else ret tt);;
  answer (reply t).

Definition log (level : Level) (format : string) (args : list LogArg) : M unit :=
  emit (ev_log level format args).

Definition await_json (response : Response) : M Content :=
  emit ev_json;; answer (json response).

Definition await_text (response : Response) : M Content :=
  emit ev_text;; answer (text response).

(** ** The command closure *)

(** [command_config] as [COMMAND_SCHEMA] leaves it: optional keys are
    options, defaulted keys are always there. *)
Record CommandConfig := {
  conf_url : Template;
  conf_method : Method;
  conf_headers : option (list (string * Template));
  conf_username : option string;
  conf_password : option string;
  conf_timeout : Z;
  conf_content_type : option string;
  conf_verify_ssl : bool
}.

(** The variables [async_service_handler] closes over. *)
Record Closure := {
  websession : bool;
  timeout : Z;
  method : Method;
  template_url : Template;
  auth : option BasicAuth;
  template_headers : list (string * Template);
  content_type_override : option string
}.

(** The first lines of [async_register_rest_command]. *)
Definition make_closure (command_config : CommandConfig) : Closure :=
  {| websession := conf_verify_ssl command_config;
     timeout := conf_timeout command_config;
     method := conf_method command_config;
     template_url := conf_url command_config;
     auth :=
       match conf_username command_config with
       | Some username =>
           Some {| login := username;
                   password := default "" (conf_password command_config) |}
       | None => None
       end;
     template_headers := default [] (conf_headers command_config);
     content_type_override := conf_content_type command_config |}.

(** Truth value of an optional string: [None] and the empty string are
    false. *)
Definition truthy (s : option string) : bool :=
  match s with
  | None => false
  | Some v => negb (String.eqb v "")
  end.

(** [f"{file_path}"]. *)
Definition format_path (path : option string) : string :=
  default "None" path.

(** The loop over [template_headers.items()]. *)
Fixpoint render_headers (env : Env) (variables : gmap string string)
    (items : list (string * Template)) (headers : gmap string string)
  : M (gmap string string) :=
  match items with
  | [] => ret headers
  | (header_name, template_header) :: rest =>
      let* value := render env template_header variables in
      render_headers env variables rest (<[header_name := value]> headers)
  end.

(** [headers or None]. *)
Definition or_None (headers : gmap string string) : option (gmap string string) :=
  if bool_decide (headers = ∅) then None else Some headers.

Definition decoding_error (request_url decoding_type : string) : Exception :=
  HomeAssistantError_translated DOMAIN "decoding_error"
    [("request_url", request_url); ("decoding_type", decoding_type)].

Definition timeout_error (request_url : string) : Exception :=
  HomeAssistantError_translated DOMAIN "timeout" [("request_url", request_url)].

Definition client_error (request_url : string) : Exception :=
  HomeAssistantError_translated DOMAIN "client_error" [("request_url", request_url)].

Definition file_not_found (path : option string) : Exception :=
  HomeAssistantError_message ("File not found: " +:+ format_path path).

(** The body of the [async with ... as response] block. *)
Definition with_response (request_url : string) (service : ServiceCall)
    (response : Response) : M ServiceResponse :=
  (if Z.ltb (status response) BAD_REQUEST
   then log DEBUG "Success. Url: %s. Status code: %d."
          [arg_str (url response); arg_int (status response)]
   else log WARNING "Error. Url: %s. Status code %d."
          [arg_str (url response); arg_int (status response)]);;
  if negb (return_response service) then ret None
  else
    let* _content :=
      try_except
        (if String.eqb (content_type response) "application/json"
         then await_json response
         else await_text response)
        [ ([cls_JSONDecodeError; cls_AttributeError],
           fun err => raise (decoding_error request_url "JSON"));
          ([cls_UnicodeDecodeError],
           fun err => raise (decoding_error request_url "text")) ] in
    ret (Some {| rd_content := _content; rd_status := status response |}).

(** [async_service_handler], the handler registered for one command. *)
Definition async_service_handler (env : Env) (c : Closure) (service : ServiceCall)
  : M ServiceResponse :=
  let* request_url := render env (template_url c) (data service) in
  let file_path := data service !! "file" in
  let* found := os_path_exists env file_path in
  if negb found then raise (file_not_found file_path)
  else
    let* headers := render_headers env (data service) (template_headers c) ∅ in
    let headers :=
      if truthy (content_type_override c)
      then <[CONTENT_TYPE := default "" (content_type_override c)]> headers
      else headers in
    try_except
      (let* file := py_open_rb env file_path in
       let* response :=
         send env {| req_verify_ssl := websession c;
                     req_method := method c;
                     req_url := request_url;
                     req_data := [("file", file)];
                     req_auth := auth c;
                     req_headers := or_None headers;
                     req_timeout := timeout c |} in
       with_response request_url service response)
      [ ([cls_TimeoutError],
         fun err => raise (timeout_error request_url));
        ([cls_ClientError],
         fun err =>
           log ERROR "Error fetching data: %s" [arg_exc err];;
           raise (client_error request_url)) ].

(** Run a handler from the initial state. *)
Definition run {A} (m : M A) : Outcome A * State := m initial.

(** ** The header loop, without the state *)

(** The value the loop over [template_headers.items()] ends with: the
    resolved header map, or the exception of the first template that does
    not render. *)
Fixpoint resolve_headers (env : Env) (variables : gmap string string)
    (items : list (string * Template)) (headers : gmap string string)
  : Exception + gmap string string :=
  match items with
  | [] => inr headers
  | (header_name, template_header) :: rest =>
      match async_render env template_header variables with
      | inl e => inl e
      | inr value =>
          resolve_headers env variables rest (<[header_name := value]> headers)
      end
  end.

(** The render calls the loop makes: one per item, up to and including the
    first that fails. *)
Fixpoint header_events (env : Env) (variables : gmap string string)
    (items : list (string * Template)) : list Event :=
  match items with
  | [] => []
  | (_, template_header) :: rest =>
      ev_render template_header ::
      match async_render env template_header variables with
      | inl _ => []
      | inr _ => header_events env variables rest
      end
  end.

Definition outcome_of {A} (r : Exception + A) : Outcome A :=
  match r with
  | inl e => Raise e
  | inr a => Return a
  end.

Lemma render_headers_run env variables items headers s :
  render_headers env variables items headers s =
  (outcome_of (resolve_headers env variables items headers),
   {| trace := trace s ++ header_events env variables items;
      open_files := open_files s |}).
Proof.
  revert headers s. induction items as [|[header_name template_header] rest IH];
    intros headers s; simpl.
  - rewrite app_nil_r. by destruct s.
  - unfold bind, render, emit, answer; simpl.
    destruct (async_render env template_header variables) as [e|value]; simpl.
    + done.
    + rewrite IH. simpl. by rewrite <- app_assoc.
Qed.

Lemma header_events_all_rendered env variables items headers resolved :
  resolve_headers env variables items headers = inr resolved ->
  header_events env variables items = map (fun item => ev_render item.2) items.
Proof.
  revert headers. induction items as [|[header_name template_header] rest IH];
    intros headers; simpl; [done|].
  destruct (async_render env template_header variables); [done|].
  intros H. by rewrite (IH _ H).
Qed.

(** ** Invocations that get as far as the request *)

(** The header map after the [if content_type:] statement. *)
Definition final_headers (c : Closure) (headers : gmap string string)
  : gmap string string :=
  if truthy (content_type_override c)
  then <[CONTENT_TYPE := default "" (content_type_override c)]> headers
  else headers.

(** The request the handler passes to the session. *)
Definition sent_request (c : Closure) (request_url : string)
    (headers : gmap string string) (file : FileHandle) : Request :=
  {| req_verify_ssl := websession c;
     req_method := method c;
     req_url := request_url;
     req_data := [("file", file)];
     req_auth := auth c;
     req_headers := or_None (final_headers c headers);
     req_timeout := timeout c |}.

(** The two outer [except] clauses. *)
Definition outer_clauses (request_url : string) : list (Clause ServiceResponse) :=
  [ ([cls_TimeoutError],
     fun err => raise (timeout_error request_url));
    ([cls_ClientError],
     fun err =>
       log ERROR "Error fetching data: %s" [arg_exc err];;
       raise (client_error request_url)) ].

(** What the collaborators must answer for the handler to reach the
    request: the URL renders to [request_url], the call names a file that
    exists, every header template renders (giving [headers]), and the file
    opens (giving [file]). *)
Record Prepared (env : Env) (c : Closure) (service : ServiceCall)
    (request_url file_path : string) (headers : gmap string string)
    (file : FileHandle) : Prop := {
  url_renders :
    async_render env (template_url c) (data service) = inr request_url;
  file_given : data service !! "file" = Some file_path;
  file_exists : path_exists env file_path = true;
  headers_render :
    resolve_headers env (data service) (template_headers c) ∅ = inr headers;
  file_opens : open_rb env file_path = inr file
}.

(** The calls made before the request. *)
Definition preparation (c : Closure) (file_path : string) : list Event :=
  [ev_render (template_url c); ev_exists (Some file_path)]
  ++ map (fun item => ev_render item.2) (template_headers c)
  ++ [ev_open (Some file_path)].
Arguments preparation : simpl never.

Lemma handle_eqb_refl h : handle_eqb h h = true.
Proof. unfold handle_eqb. apply String.eqb_refl. Qed.

Section Sent.
Context (env : Env) (c : Closure) (service : ServiceCall).
Context (request_url file_path : string) (headers : gmap string string).
Context (file : FileHandle).
Hypothesis prepared : Prepared env c service request_url file_path headers file.

Let request := sent_request c request_url headers file.

(** The state in which the body of the [async with] block starts, or in
    which the exception of the request is dispatched. *)
Definition after_request : State :=
  {| trace := preparation c file_path ++ [ev_request request];
     open_files :=
       if body_released (transport env request) then [] else [file] |}.

Lemma handler_sends :
  run (async_service_handler env c service) =
  match reply (transport env request) with
  | inl e => dispatch (outer_clauses request_url) e after_request
  | inr response =>
      try_except (with_response request_url service response)
        (outer_clauses request_url) after_request
  end.
Proof.
  destruct prepared as [Hurl Hfile Hexists Hheaders Hopen].
  unfold run, async_service_handler, bind at 1, render, bind at 1, emit; simpl.
  rewrite Hurl; simpl. rewrite Hfile.
  unfold bind at 1, os_path_exists, bind at 1, emit; simpl.
  rewrite Hexists; simpl.
  unfold bind at 1. rewrite render_headers_run, Hheaders; simpl.
  rewrite (header_events_all_rendered _ _ _ _ _ Hheaders).
  unfold try_except at 1, bind at 1, py_open_rb, bind at 1, emit; simpl.
  unfold bind at 1, answer. rewrite Hopen; simpl.
  unfold bind at 1, send, bind at 1, emit; simpl.
  fold (final_headers c headers). fold (sent_request c request_url headers file).
  fold request.
  unfold after_request, preparation.
  unfold bind at 1.
  destruct (transport env request) as [[e|response] released]; simpl.
  - destruct released; unfold release, ret, raise; simpl;
      rewrite ?handle_eqb_refl; reflexivity.
  - unfold try_except.
    destruct released; unfold release, ret; simpl;
      rewrite ?handle_eqb_refl; reflexivity.
Qed.
End Sent.

(** ** The body of the [async with] block *)

(** [s] with the calls [events] appended to its trace. *)
Definition record (s : State) (events : list Event) : State :=
  {| trace := trace s ++ events; open_files := open_files s |}.

(** The log call made for a response. *)
Definition status_log (response : Response) : Event :=
  if Z.ltb (status response) BAD_REQUEST
  then ev_log DEBUG "Success. Url: %s. Status code: %d."
         [arg_str (url response); arg_int (status response)]
  else ev_log WARNING "Error. Url: %s. Status code %d."
         [arg_str (url response); arg_int (status response)].

(** The body read the handler attempts when a response is wanted. *)
Definition is_json (response : Response) : bool :=
  String.eqb (content_type response) "application/json".

Definition read_event (response : Response) : Event :=
  if is_json response then ev_json else ev_text.

Definition attempted (response : Response) : Exception + Content :=
  if is_json response then json response else text response.

Lemma with_response_run request_url service response s :
  try_except (with_response request_url service response)
    (outer_clauses request_url) s =
  if negb (return_response service)
  then (Return None, record s [status_log response])
  else
    let s' := record s [status_log response; read_event response] in
    match attempted response with
    | inr body =>
        (Return (Some {| rd_content := body; rd_status := status response |}), s')
    | inl e =>
        if isinstance e cls_JSONDecodeError || isinstance e cls_AttributeError
        then (Raise (decoding_error request_url "JSON"), s')
        else if isinstance e cls_UnicodeDecodeError
        then (Raise (decoding_error request_url "text"), s')
        else dispatch (outer_clauses request_url) e s'
    end.
Proof.
  unfold with_response, status_log, read_event, attempted, is_json, record,
    await_json, await_text, log.
  destruct (Z.ltb (status response) BAD_REQUEST), (return_response service),
    (String.eqb (content_type response) "application/json"); simpl.
  all: try match goal with
       | |- context [json ?r] => destruct (json r) as [[]|body]
       | |- context [text ?r] => destruct (text r) as [[]|body]
       end.
  all: unfold try_except, bind, emit, answer, ret, raise; simpl;
    unfold bind, emit, raise; simpl; rewrite <- ?app_assoc; reflexivity.
Qed.

(** ** Invocations that stop before the request *)

(** The calls that do not touch the network: renders, the existence check,
    the open, log records. *)
Definition is_local (e : Event) : Prop :=
  match e with
  | ev_request _ | ev_json | ev_text => False
  | _ => True
  end.

Lemma header_events_local env variables items :
  Forall is_local (header_events env variables items).
Proof.
  induction items as [|[header_name template_header] rest IH]; simpl.
  - constructor.
  - constructor; [exact I|].
    destruct (async_render env template_header variables); [constructor|done].
Qed.

(** The exits of the handler before the request, one lemma per exit. *)
Section Preflight.
Context (env : Env) (c : Closure) (service : ServiceCall).

Lemma handler_url_fails e :
  async_render env (template_url c) (data service) = inl e ->
  run (async_service_handler env c service) =
  (Raise e, {| trace := [ev_render (template_url c)]; open_files := [] |}).
Proof.
  intros Hurl. unfold run, async_service_handler, bind, render, emit; simpl.
  by rewrite Hurl.
Qed.

Context (request_url : string).
Hypothesis Hurl :
  async_render env (template_url c) (data service) = inr request_url.

Lemma handler_no_file :
  data service !! "file" = None ->
  run (async_service_handler env c service) =
  (Raise TypeError,
   {| trace := [ev_render (template_url c); ev_exists None];
      open_files := [] |}).
Proof.
  intros Hfile.
  unfold run, async_service_handler, bind at 1, render, bind, emit; simpl.
  rewrite Hurl; simpl. by rewrite Hfile.
Qed.

Context (file_path : string).
Hypothesis Hfile : data service !! "file" = Some file_path.

Lemma handler_file_missing :
  path_exists env file_path = false ->
  run (async_service_handler env c service) =
  (Raise (file_not_found (Some file_path)),
   {| trace := [ev_render (template_url c); ev_exists (Some file_path)];
      open_files := [] |}).
Proof.
  intros Hexists.
  unfold run, async_service_handler, bind at 1, render, bind, emit; simpl.
  rewrite Hurl; simpl. rewrite Hfile; simpl. by rewrite Hexists.
Qed.

Hypothesis Hexists : path_exists env file_path = true.

Lemma handler_header_fails e :
  resolve_headers env (data service) (template_headers c) ∅ = inl e ->
  run (async_service_handler env c service) =
  (Raise e,
   {| trace :=
        [ev_render (template_url c); ev_exists (Some file_path)]
        ++ header_events env (data service) (template_headers c);
      open_files := [] |}).
Proof.
  intros Hheaders.
  unfold run, async_service_handler, bind at 1, render, bind at 1, emit; simpl.
  rewrite Hurl; simpl. rewrite Hfile.
  unfold bind at 1, os_path_exists, bind at 1, emit; simpl.
  rewrite Hexists; simpl.
  unfold bind at 1. by rewrite render_headers_run, Hheaders.
Qed.

Lemma handler_open_fails headers e :
  resolve_headers env (data service) (template_headers c) ∅ = inr headers ->
  open_rb env file_path = inl e ->
  run (async_service_handler env c service) =
  dispatch (outer_clauses request_url) e
    {| trace := preparation c file_path; open_files := [] |}.
Proof.
  intros Hheaders Hopen.
  unfold run, async_service_handler, bind at 1, render, bind at 1, emit; simpl.
  rewrite Hurl; simpl. rewrite Hfile.
  unfold bind at 1, os_path_exists, bind at 1, emit; simpl.
  rewrite Hexists; simpl.
  unfold bind at 1. rewrite render_headers_run, Hheaders; simpl.
  rewrite (header_events_all_rendered _ _ _ _ _ Hheaders).
  unfold try_except at 1, bind at 1, py_open_rb, bind at 1, emit; simpl.
  unfold bind at 1, answer. rewrite Hopen; simpl.
  unfold preparation. by rewrite <- ?app_assoc.
Qed.
End Preflight.

(** The calls of the preparation: renders, the existence check, the open. *)
Definition is_preflight (e : Event) : Prop :=
  match e with
  | ev_render _ | ev_exists _ | ev_open _ => True
  | _ => False
  end.

Lemma preparation_preflight c file_path :
  Forall is_preflight (preparation c file_path).
Proof.
  unfold preparation. do 2 (constructor; [exact I|]).
  apply Forall_app. split; [|by repeat constructor].
  induction (template_headers c); by constructor.
Qed.

Lemma preparation_local c file_path : Forall is_local (preparation c file_path).
Proof.
  eapply Forall_impl; [apply preparation_preflight|]. by intros [].
Qed.

Lemma not_in_preparation c file_path e :
  ~ is_preflight e -> e ∉ preparation c file_path.
Proof.
  intros Hno Hin.
  pose proof (preparation_preflight c file_path) as Hall.
  rewrite Forall_forall in Hall. exact (Hno (Hall e Hin)).
Qed.

(** Every invocation either reaches the request, or raises after local
    calls only, with no file left open. *)
Lemma handler_cases env c service :
  (exists request_url file_path headers file,
      Prepared env c service request_url file_path headers file)
  \/ (exists e,
        (run (async_service_handler env c service)).1 = Raise e)
     /\ Forall is_local (trace (run (async_service_handler env c service)).2)
     /\ open_files (run (async_service_handler env c service)).2 = [].
Proof.
  destruct (async_render env (template_url c) (data service))
    as [e|request_url] eqn:Hurl.
  { right. rewrite (handler_url_fails _ _ _ _ Hurl); simpl.
    split; [by eexists|]. split; [|done]. by repeat constructor. }
  destruct (data service !! "file") as [file_path|] eqn:Hfile.
  2:{ right. rewrite (handler_no_file _ _ _ _ Hurl Hfile); simpl.
      split; [by eexists|]. split; [|done]. by repeat constructor. }
  destruct (path_exists env file_path) eqn:Hexists.
  2:{ right. rewrite (handler_file_missing _ _ _ _ Hurl _ Hfile Hexists); simpl.
      split; [by eexists|]. split; [|done]. by repeat constructor. }
  destruct (resolve_headers env (data service) (template_headers c) ∅)
    as [e|headers] eqn:Hheaders.
  { right.
    rewrite (handler_header_fails _ _ _ _ Hurl _ Hfile Hexists _ Hheaders); simpl.
    split; [by eexists|]. split; [|done].
    do 2 (constructor; [exact I|]). apply header_events_local. }
  destruct (open_rb env file_path) as [e|file] eqn:Hopen.
  2:{ left. exists request_url, file_path, headers, file. by constructor. }
  right.
  rewrite (handler_open_fails _ _ _ _ Hurl _ Hfile Hexists _ _ Hheaders Hopen).
  pose proof (preparation_local c file_path) as Hpre.
  revert Hpre. generalize (preparation c file_path). intros calls Hpre.
  destruct e; simpl; (split; [by eexists|]); split; try done;
    unfold bind, log, emit, raise; simpl;
    apply Forall_app; split; try done; by repeat constructor.
Qed.

(** ** The spec's classification of failures *)

Module Taxonomy.
(** The five classified failures, each with its context. *)
Inductive Fault :=
| ValidationError
| FileNotFound (path : string)
| Timeout (request_url : string)
| ClientError (request_url : string)
| DecodingError (request_url decoding_type : string).

(** [strip_prefix p s]: what follows [p] in [s], when [s] starts with it. *)
Fixpoint strip_prefix (p s : string) : option string :=
  match p, s with
  | EmptyString, _ => Some s
  | String a p', String b s' =>
      if Ascii.eqb a b then strip_prefix p' s' else None
  | String _ _, EmptyString => None
  end.

(** The failure an exception leaving the handler stands for, if any: a
    template error is a validation error, and the handler's own errors
    are told apart by their message or their translation key. *)
Definition classify (e : Exception) : option Fault :=
  match e with
  | TemplateError => Some ValidationError
  | HomeAssistantError_message message =>
      FileNotFound <$> strip_prefix "File not found: " message
  | HomeAssistantError_translated _ key placeholders =>
      match placeholders with
      | [(_, request_url)] =>
          if String.eqb key "timeout" then Some (Timeout request_url)
          else if String.eqb key "client_error" then Some (ClientError request_url)
          else None
      | [(_, request_url); (_, decoding_type)] =>
          if String.eqb key "decoding_error"
          then Some (DecodingError request_url decoding_type)
          else None
      | _ => None
      end
  | _ => None
  end.
End Taxonomy.

(** ** Concrete collaborators and commands *)

Module Scenario.
(** Templates without placeholders render to themselves; [templates_ok]
    switches between an engine that renders and one that rejects every
    template.  Every path exists or none does, every file opens, and the
    session answers every request with [t]. *)
Definition world (templates_ok file_there : bool) (t : TransportReply) : Env :=
  {| async_render := fun template _ =>
       if templates_ok then inr template else inl TemplateError;
     path_exists := fun _ => file_there;
     open_rb := fun path => inr (OpenedRB path);
     transport := fun _ => t |}.

Definition upload_url : string := "https://api.example.com/upload".

(** [send_photo]: a POST to [upload_url] with the defaults of the schema. *)
Definition send_photo : CommandConfig :=
  {| conf_url := upload_url;
     conf_method := DEFAULT_METHOD;
     conf_headers := None;
     conf_username := None;
     conf_password := None;
     conf_timeout := DEFAULT_TIMEOUT;
     conf_content_type := None;
     conf_verify_ssl := DEFAULT_VERIFY_SSL |}.

(** [send_photo] with a [Content-Type] header template and a
    [content_type] option. *)
Definition typed_photo (content_type : string) : CommandConfig :=
  {| conf_url := upload_url;
     conf_method := DEFAULT_METHOD;
     conf_headers := Some [("Content-Type", "text/plain"); ("X-Token", "abc")];
     conf_username := Some "u";
     conf_password := Some "p";
     conf_timeout := DEFAULT_TIMEOUT;
     conf_content_type := Some content_type;
     conf_verify_ssl := DEFAULT_VERIFY_SSL |}.

Definition call (path : string) (want : bool) : ServiceCall :=
  {| data := {[ "file" := path ]}; return_response := want |}.

Definition call_without_file : ServiceCall :=
  {| data := ∅; return_response := false |}.

Definition respond (code : Z) (mime : string) (as_json as_text : Exception + Content)
    (released : bool) : TransportReply :=
  {| reply := inr {| status := code; url := upload_url; content_type := mime;
                     json := as_json; text := as_text |};
     body_released := released |}.

Definition fail_with (e : Exception) (released : bool) : TransportReply :=
  {| reply := inl e; body_released := released |}.

Definition ok_json : TransportReply :=
  respond 200 "application/json" (inr "{id: 1}") (inr "{id: 1}") true.
End Scenario.

(** * Properties *)

(** ** Pre-flight failure on a missing file *)

(** C1, as stated, fails: with a URL template that does not render, an
    invocation whose file is missing raises the template error, not the
    file-not-found error. *)
Lemma missing_file_unrendered_url :
  let env := Scenario.world false false Scenario.ok_json in
  let service := Scenario.call "/missing.jpg" false in
  data service !! "file" = Some "/missing.jpg"
  /\ path_exists env "/missing.jpg" = false
  /\ (run (async_service_handler env (make_closure Scenario.send_photo) service)).1
     = Raise TemplateError
  /\ (run (async_service_handler env (make_closure Scenario.send_photo) service)).1
     <> Raise (file_not_found (Some "/missing.jpg")).
Proof. vm_compute. repeat split; discriminate. Qed.

(** C1, amended: an invocation whose file does not exist never gets past
    the existence check.  When the URL template renders it raises the
    file-not-found error carrying the path, having rendered the URL and
    checked the path and nothing else: no header template rendered, no file
    opened, no request sent.  When the URL template does not render it
    raises that template's error, having made the render call only. *)
Theorem preflight_missing_file env c service file_path :
  data service !! "file" = Some file_path ->
  path_exists env file_path = false ->
  let result := run (async_service_handler env c service) in
  open_files result.2 = []
  /\ match async_render env (template_url c) (data service) with
     | inr request_url =>
         result.1 = Raise (file_not_found (Some file_path))
         /\ file_not_found (Some file_path)
            = HomeAssistantError_message ("File not found: " +:+ file_path)
         /\ Taxonomy.classify (file_not_found (Some file_path))
            = Some (Taxonomy.FileNotFound file_path)
         /\ trace result.2
            = [ev_render (template_url c); ev_exists (Some file_path)]
     | inl e =>
         result.1 = Raise e /\ trace result.2 = [ev_render (template_url c)]
     end.
Proof.
  intros Hfile Hexists result. subst result.
  destruct (async_render env (template_url c) (data service))
    as [e|request_url] eqn:Hurl.
  - by rewrite (handler_url_fails _ _ _ _ Hurl).
  - rewrite (handler_file_missing _ _ _ _ Hurl _ Hfile Hexists). simpl.
    by repeat split.
Qed.

Lemma preflight_missing_file_witness :
  let env := Scenario.world true false Scenario.ok_json in
  let service := Scenario.call "/missing.jpg" true in
  let result :=
    run (async_service_handler env (make_closure Scenario.send_photo) service) in
  result.1 = Raise (HomeAssistantError_message "File not found: /missing.jpg")
  /\ trace result.2 = [ev_render Scenario.upload_url; ev_exists (Some "/missing.jpg")].
Proof.
  intros env service result.
  pose proof (preflight_missing_file env (make_closure Scenario.send_photo)
                service "/missing.jpg" eq_refl eq_refl) as H.
  simpl in H. destruct H as (_ & Hraise & _ & _ & Htrace). by split.
Defined.

(** ** Invocations that get a response *)

Section Responded.
Context (env : Env) (c : Closure) (service : ServiceCall).
Context (request_url file_path : string) (headers : gmap string string).
Context (file : FileHandle) (response : Response).
Hypothesis prepared : Prepared env c service request_url file_path headers file.
Hypothesis responded :
  reply (transport env (sent_request c request_url headers file)) = inr response.

Let start := after_request env c request_url file_path headers file.

Lemma handler_responds :
  run (async_service_handler env c service) =
  if negb (return_response service)
  then (Return None, record start [status_log response])
  else
    let s' := record start [status_log response; read_event response] in
    match attempted response with
    | inr body =>
        (Return (Some {| rd_content := body; rd_status := status response |}), s')
    | inl e =>
        if isinstance e cls_JSONDecodeError || isinstance e cls_AttributeError
        then (Raise (decoding_error request_url "JSON"), s')
        else if isinstance e cls_UnicodeDecodeError
        then (Raise (decoding_error request_url "text"), s')
        else dispatch (outer_clauses request_url) e s'
    end.
Proof.
  rewrite (handler_sends _ _ _ _ _ _ _ prepared), responded.
  apply with_response_run.
Qed.

(** Whatever comes after, the trace starts with the preparation, the
    request and the log record of the status. *)
Lemma trace_responds :
  exists rest,
    trace (run (async_service_handler env c service)).2 =
    (preparation c file_path
     ++ [ev_request (sent_request c request_url headers file);
         status_log response]
     ++ rest)%list
    /\ (return_response service = false -> rest = [])
    /\ (return_response service = true ->
        (rest = [read_event response]
         \/ exists e, attempted response = inl e
              /\ rest = [read_event response;
                         ev_log ERROR "Error fetching data: %s" [arg_exc e]])).
Proof.
  rewrite handler_responds.
  destruct (return_response service); simpl.
  2:{ exists []. rewrite <- app_assoc. simpl. by repeat split. }
  destruct (attempted response) as [e|body]; simpl.
  2:{ exists [read_event response]. rewrite <- app_assoc. simpl.
      repeat split; [done|]. intros _. by left. }
  destruct e; simpl;
    try (exists [read_event response]; rewrite <- app_assoc; simpl;
         repeat split; [done|]; intros _; by left).
  exists [read_event response;
          ev_log ERROR "Error fetching data: %s" [arg_exc ClientError]].
  unfold bind, log, emit, raise; simpl. rewrite <- !app_assoc. simpl.
  repeat split; [done|]. intros _. right. by eexists.
Qed.
End Responded.

Lemma status_log_warning response :
  BAD_REQUEST <= status response ->
  status_log response =
  ev_log WARNING "Error. Url: %s. Status code %d."
    [arg_str (url response); arg_int (status response)].
Proof.
  intros H. unfold status_log.
  destruct (Z.ltb_spec (status response) BAD_REQUEST); [lia|done].
Qed.

Lemma status_log_debug response :
  status response < BAD_REQUEST ->
  status_log response =
  ev_log DEBUG "Success. Url: %s. Status code: %d."
    [arg_str (url response); arg_int (status response)].
Proof.
  intros H. unfold status_log.
  destruct (Z.ltb_spec (status response) BAD_REQUEST); [done|lia].
Qed.

Lemma read_event_not_log response level format args :
  read_event response <> ev_log level format args.
Proof. unfold read_event. by destruct (is_json response). Qed.

(** ** Soft failure on the HTTP status *)

(** C2, as stated, fails: a response with status 500 whose body cannot be
    decoded makes an invocation that wants the response fail. *)
Lemma error_status_undecodable_body :
  let t := Scenario.respond 500 "application/json"
             (inl JSONDecodeError) (inr "error") true in
  let env := Scenario.world true true t in
  let service := Scenario.call "/config/www/image.jpg" true in
  (exists response,
      (forall r, reply (transport env r) = inr response)
      /\ BAD_REQUEST <= status response)
  /\ return_response service = true
  /\ (run (async_service_handler env (make_closure Scenario.send_photo) service)).1
     = Raise (decoding_error Scenario.upload_url "JSON").
Proof.
  split; [|by vm_compute].
  eexists. split; [intros r; reflexivity|]. by vm_compute.
Qed.

(** C2, amended: the status of a response never makes the invocation fail.
    For every response the session returns, one record of the status and
    URL is logged, at warning level when the status is 400 or more and at
    debug level when it is less; the invocation returns [None] when no
    response is wanted, and the dictionary of the decoded body and the
    status when one is wanted and the body decodes.  (A body that does not
    decode fails the invocation whatever the status.) *)
Theorem status_is_logged_not_raised env c service request_url file_path headers
    file response :
  Prepared env c service request_url file_path headers file ->
  reply (transport env (sent_request c request_url headers file)) = inr response ->
  let result := run (async_service_handler env c service) in
  (BAD_REQUEST <= status response ->
     ev_log WARNING "Error. Url: %s. Status code %d."
       [arg_str (url response); arg_int (status response)] ∈ trace result.2
     /\ forall format args, ev_log DEBUG format args ∉ trace result.2)
  /\ (status response < BAD_REQUEST ->
     ev_log DEBUG "Success. Url: %s. Status code: %d."
       [arg_str (url response); arg_int (status response)] ∈ trace result.2
     /\ forall format args, ev_log WARNING format args ∉ trace result.2)
  /\ (return_response service = false -> result.1 = Return None)
  /\ (return_response service = true ->
      forall body, attempted response = inr body ->
        result.1 = Return (Some {| rd_content := body;
                                   rd_status := status response |}))
  /\ (return_response service = true ->
      forall e, attempted response = inl e -> exists e', result.1 = Raise e').
Proof.
  intros Hprep Hreply result. subst result.
  destruct (trace_responds _ _ _ _ _ _ _ _ Hprep Hreply)
    as (rest & Htrace & Hquiet & Hread).
  assert (forall level format args,
             level <> ERROR ->
             ev_log level format args ∈ rest -> False) as Hrest.
  { intros level format args Hlevel Hin.
    destruct (return_response service).
    - destruct Hread as [->|(e & _ & ->)]; [done|..].
      + apply list_elem_of_singleton in Hin.
        by eapply read_event_not_log.
      + apply elem_of_cons in Hin as [Hin|Hin].
        * by eapply read_event_not_log.
        * apply list_elem_of_singleton in Hin. congruence.
    - rewrite Hquiet in Hin by done. by apply elem_of_nil in Hin. }
  assert (forall level format args,
             level <> ERROR ->
             ev_log level format args ∈
               trace (run (async_service_handler env c service)).2 ->
             ev_log level format args = status_log response) as Honly.
  { intros level format args Hlevel. rewrite Htrace.
    rewrite !elem_of_app, !elem_of_cons, elem_of_nil.
    intros [Hin|[[Hin|[Hin|[]]]|Hin]]; [|done|done|].
    - exfalso. eapply not_in_preparation; [|exact Hin]. by intros [].
    - by destruct (Hrest _ _ _ Hlevel Hin). }
  assert (status_log response ∈
            trace (run (async_service_handler env c service)).2) as Hlogged.
  { rewrite Htrace. rewrite !elem_of_app, !elem_of_cons. auto. }
  split; [|split].
  - intros Hge. rewrite <- (status_log_warning _ Hge). split; [done|].
    intros format args Hin. apply Honly in Hin; [|done].
    by rewrite (status_log_warning _ Hge) in Hin.
  - intros Hlt. rewrite <- (status_log_debug _ Hlt). split; [done|].
    intros format args Hin. apply Honly in Hin; [|done].
    by rewrite (status_log_debug _ Hlt) in Hin.
  - rewrite (handler_responds _ _ _ _ _ _ _ _ Hprep Hreply).
    split; [|split].
    + by intros ->.
    + intros -> body ->. done.
    + intros -> e ->. simpl.
      destruct e; simpl; eauto.
Qed.

Lemma status_is_logged_not_raised_witness :
  let t := Scenario.respond 500 "text/plain" (inl JSONDecodeError) (inr "error") true in
  let env := Scenario.world true true t in
  let c := make_closure Scenario.send_photo in
  let service := Scenario.call "/config/www/image.jpg" true in
  let result := run (async_service_handler env c service) in
  ev_log WARNING "Error. Url: %s. Status code %d."
    [arg_str Scenario.upload_url; arg_int 500] ∈ trace result.2
  /\ result.1 = Return (Some {| rd_content := "error"; rd_status := 500 |}).
Proof.
  intros t env c service result.
  assert (Prepared env c service Scenario.upload_url "/config/www/image.jpg" ∅
            (OpenedRB "/config/www/image.jpg")) as Hprep
    by (constructor; reflexivity).
  destruct (status_is_logged_not_raised env c service _ _ _ _ _ Hprep eq_refl)
    as (Hwarn & _ & _ & Hbody & _).
  split.
  - apply Hwarn. vm_compute. discriminate.
  - apply Hbody; reflexivity.
Defined.

(** ** Requests sent and exceptions of the session *)

(** The requests in a trace, in order. *)
Definition requests (events : list Event) : list Request :=
  omap (fun e => match e with ev_request r => Some r | _ => None end) events.

(** The body reads in a trace. *)
Definition reads (events : list Event) : list Event :=
  List.filter (fun e => match e with ev_json | ev_text => true | _ => false end)
    events.

Lemma requests_app events1 events2 :
  requests (events1 ++ events2) = (requests events1 ++ requests events2)%list.
Proof. apply omap_app. Qed.

Lemma reads_app events1 events2 :
  reads (events1 ++ events2) = (reads events1 ++ reads events2)%list.
Proof. apply List.filter_app. Qed.

Lemma local_no_requests events : Forall is_local events -> requests events = [].
Proof.
  induction 1 as [|e events He _ IH]; [done|].
  destruct e; simpl in *; done.
Qed.

Lemma local_no_reads events : Forall is_local events -> reads events = [].
Proof.
  induction 1 as [|e events He _ IH]; [done|].
  destruct e; simpl in *; done.
Qed.

(** The two outer clauses, by the class of the exception. *)
Lemma dispatch_outer request_url e s :
  dispatch (outer_clauses request_url) e s =
  if isinstance e cls_TimeoutError
  then (Raise (timeout_error request_url), s)
  else if isinstance e cls_ClientError
  then (Raise (client_error request_url),
        record s [ev_log ERROR "Error fetching data: %s" [arg_exc e]])
  else (Raise e, s).
Proof. by destruct e. Qed.

Section Sent_facts.
Context (env : Env) (c : Closure) (service : ServiceCall).
Context (request_url file_path : string) (headers : gmap string string).
Context (file : FileHandle).
Hypothesis prepared : Prepared env c service request_url file_path headers file.

Let request := sent_request c request_url headers file.
Let result := run (async_service_handler env c service).

(** After the request the handler only logs and reads the body. *)
Lemma trace_sent :
  exists rest,
    trace result.2 = (preparation c file_path ++ ev_request request :: rest)%list
    /\ requests rest = []
    /\ (return_response service = false -> reads rest = []).
Proof.
  subst result request.
  destruct (reply (transport env (sent_request c request_url headers file)))
    as [e|response] eqn:Hreply.
  - rewrite (handler_sends _ _ _ _ _ _ _ prepared), Hreply, dispatch_outer.
    destruct (isinstance e cls_TimeoutError); [by exists []|].
    destruct (isinstance e cls_ClientError); [|by exists []].
    eexists [_]. simpl. by rewrite <- app_assoc.
  - destruct (trace_responds _ _ _ _ _ _ _ _ prepared Hreply)
      as (rest & -> & Hquiet & Hread).
    eexists (_ :: rest). split; [done|].
    destruct (return_response service).
    + split; [|done].
      destruct Hread as [->|(e & _ & ->)]; unfold status_log, read_event;
        by destruct (Z.ltb (status response) BAD_REQUEST), (is_json response).
    + rewrite Hquiet by done. unfold status_log.
      by destruct (Z.ltb (status response) BAD_REQUEST).
Qed.

Lemma requests_sent : requests (trace result.2) = [request].
Proof.
  destruct trace_sent as (rest & -> & Hrest & _).
  rewrite requests_app.
  rewrite (local_no_requests _ (preparation_local c file_path)).
  simpl. by rewrite Hrest.
Qed.

Lemma open_files_sent :
  open_files result.2 =
  if body_released (transport env request) then [] else [file].
Proof.
  subst result request.
  rewrite (handler_sends _ _ _ _ _ _ _ prepared).
  destruct (reply (transport env (sent_request c request_url headers file)))
    as [e|response] eqn:Hreply.
  - rewrite dispatch_outer.
    by destruct (isinstance e cls_TimeoutError), (isinstance e cls_ClientError).
  - rewrite with_response_run.
    destruct (return_response service); [|done]. cbn [negb]. cbv zeta.
    destruct (attempted response) as [e|body]; [|done].
    destruct (isinstance e cls_JSONDecodeError || isinstance e cls_AttributeError);
      [done|].
    destruct (isinstance e cls_UnicodeDecodeError); [done|].
    rewrite dispatch_outer.
    by destruct (isinstance e cls_TimeoutError), (isinstance e cls_ClientError).
Qed.
End Sent_facts.

(** ** The file handle *)

(** C4, as stated, fails: when the session times out before it has written
    the body, the invocation ends with the file it opened still open. *)
Lemma timeout_leaves_file_open :
  let env := Scenario.world true true (Scenario.fail_with TimeoutError false) in
  let service := Scenario.call "/config/www/image.jpg" false in
  let result :=
    run (async_service_handler env (make_closure Scenario.send_photo) service) in
  ev_open (Some "/config/www/image.jpg") ∈ trace result.2
  /\ result.1 = Raise (timeout_error Scenario.upload_url)
  /\ open_files result.2 = [OpenedRB "/config/www/image.jpg"].
Proof.
  vm_compute. split; [|done].
  apply list_elem_of_In. simpl. tauto.
Qed.

(** C4, amended: the handler opens the file last thing before the request,
    passes the handle to the session as the only multipart field, [file],
    of the only request it sends, and never closes it itself.  On every
    path from there (a response, a timeout, a client error, a body that
    does not decode) the handle is closed when the invocation completes
    exactly if the session released it. *)
Theorem file_handle_left_to_session env c service request_url file_path headers
    file :
  Prepared env c service request_url file_path headers file ->
  let request := sent_request c request_url headers file in
  let result := run (async_service_handler env c service) in
  (exists rest,
      trace result.2 =
      (preparation c file_path ++ ev_request request :: rest)%list
      /\ last (preparation c file_path) = Some (ev_open (Some file_path)))
  /\ requests (trace result.2) = [request]
  /\ req_data request = [("file", file)]
  /\ open_files result.2
     = if body_released (transport env request) then [] else [file].
Proof.
  intros Hprep request result. split; [|split; [|split]].
  - destruct (trace_sent _ _ _ _ _ _ _ Hprep) as (rest & Htrace & _).
    exists rest. split; [done|].
    unfold preparation. by rewrite app_assoc, last_snoc.
  - exact (requests_sent _ _ _ _ _ _ _ Hprep).
  - done.
  - exact (open_files_sent _ _ _ _ _ _ _ Hprep).
Qed.

Lemma file_handle_left_to_session_witness :
  let env := Scenario.world true true Scenario.ok_json in
  let service := Scenario.call "/config/www/image.jpg" true in
  let result :=
    run (async_service_handler env (make_closure Scenario.send_photo) service) in
  open_files result.2 = [].
Proof.
  intros env service result.
  assert (Prepared env (make_closure Scenario.send_photo) service
            Scenario.upload_url "/config/www/image.jpg" ∅
            (OpenedRB "/config/www/image.jpg")) as Hprep
    by (constructor; reflexivity).
  destruct (file_handle_left_to_session _ _ _ _ _ _ _ Hprep) as (_ & _ & _ & H).
  exact H.
Defined.

(** ** Decoding the body *)

(** C6, as stated, fails: the discriminator follows the class of the
    exception, not the decoder that was tried.  A JSON body whose bytes are
    not valid in its charset makes the JSON decoder raise
    [UnicodeDecodeError], and the error then says [text]. *)
Lemma json_attempt_reported_as_text :
  let t := Scenario.respond 200 "application/json"
             (inl UnicodeDecodeError) (inr "ok") true in
  let env := Scenario.world true true t in
  let service := Scenario.call "/config/www/image.jpg" true in
  let result :=
    run (async_service_handler env (make_closure Scenario.send_photo) service) in
  reads (trace result.2) = [ev_json]
  /\ result.1 = Raise (decoding_error Scenario.upload_url "text")
  /\ result.1 <> Raise (decoding_error Scenario.upload_url "JSON").
Proof. by vm_compute. Qed.

(** C6, amended: when a response is wanted, a response whose content type
    is exactly [application/json] is decoded as JSON and any other as text,
    by one read of the body, and the decoded value is returned with the
    status.  When the attempted decode raises a JSON-parse error or an
    attribute error the invocation fails with the decoding error carrying
    the request URL and the discriminator [JSON]; when it raises a
    character-encoding error, with the discriminator [text]: the
    discriminator is that of the exception's class, whichever decode was
    attempted. *)
Theorem decode_by_content_type env c service request_url file_path headers
    file response :
  Prepared env c service request_url file_path headers file ->
  reply (transport env (sent_request c request_url headers file)) = inr response ->
  return_response service = true ->
  let result := run (async_service_handler env c service) in
  reads (trace result.2)
  = [if String.eqb (content_type response) "application/json"
     then ev_json else ev_text]
  /\ attempted response
     = (if String.eqb (content_type response) "application/json"
        then json response else text response)
  /\ (forall body, attempted response = inr body ->
        result.1 = Return (Some {| rd_content := body;
                                   rd_status := status response |}))
  /\ (forall e, attempted response = inl e ->
        e = JSONDecodeError \/ e = AttributeError ->
        result.1 = Raise (decoding_error request_url "JSON"))
  /\ (attempted response = inl UnicodeDecodeError ->
        result.1 = Raise (decoding_error request_url "text"))
  /\ (forall decoding_type,
        Taxonomy.classify (decoding_error request_url decoding_type)
        = Some (Taxonomy.DecodingError request_url decoding_type)).
Proof.
  intros Hprep Hreply Hwant result. subst result.
  split; [|split; [done|]].
  - destruct (trace_responds _ _ _ _ _ _ _ _ Hprep Hreply)
      as (rest & -> & _ & Hread).
    rewrite reads_app, (local_no_reads _ (preparation_local c file_path)).
    fold (is_json response).
    destruct (Hread Hwant) as [->|(e & _ & ->)];
      unfold status_log, read_event;
      by destruct (Z.ltb (status response) BAD_REQUEST), (is_json response).
  - rewrite (handler_responds _ _ _ _ _ _ _ _ Hprep Hreply), Hwant.
    cbn [negb]. cbv zeta.
    split; [|split; [|split]].
    + by intros body ->.
    + by intros e -> [->| ->].
    + by intros ->.
    + done.
Qed.

Lemma decode_by_content_type_witness :
  let env := Scenario.world true true Scenario.ok_json in
  let service := Scenario.call "/config/www/image.jpg" true in
  let result :=
    run (async_service_handler env (make_closure Scenario.send_photo) service) in
  reads (trace result.2) = [ev_json]
  /\ result.1 = Return (Some {| rd_content := "{id: 1}"; rd_status := 200 |}).
Proof.
  intros env service result.
  assert (Prepared env (make_closure Scenario.send_photo) service
            Scenario.upload_url "/config/www/image.jpg" ∅
            (OpenedRB "/config/www/image.jpg")) as Hprep
    by (constructor; reflexivity).
  destruct (decode_by_content_type _ _ _ _ _ _ _ _ Hprep eq_refl eq_refl)
    as (Hreads & _ & Hbody & _).
  split; [exact Hreads|]. by apply Hbody.
Defined.

(** ** Timeouts and client errors *)

(** C7: when the request raises a timeout the invocation fails with the
    timeout error carrying the rendered URL; when it raises another client
    error the invocation fails with the client error carrying the rendered
    URL, after that error has been logged at error level.  No invocation
    sends more than one request: nothing is retried. *)
Theorem transport_faults_are_classified env c service :
  let result := run (async_service_handler env c service) in
  (length (requests (trace result.2)) <= 1)%nat
  /\ forall request_url file_path headers file e,
       Prepared env c service request_url file_path headers file ->
       reply (transport env (sent_request c request_url headers file)) = inl e ->
       requests (trace result.2) = [sent_request c request_url headers file]
       /\ (isinstance e cls_TimeoutError = true ->
           result.1 = Raise (timeout_error request_url)
           /\ Taxonomy.classify (timeout_error request_url)
              = Some (Taxonomy.Timeout request_url))
       /\ (isinstance e cls_TimeoutError = false ->
           isinstance e cls_ClientError = true ->
           result.1 = Raise (client_error request_url)
           /\ Taxonomy.classify (client_error request_url)
              = Some (Taxonomy.ClientError request_url)
           /\ ev_log ERROR "Error fetching data: %s" [arg_exc e] ∈ trace result.2).
Proof.
  intros result. subst result. split.
  - destruct (handler_cases env c service)
      as [(request_url & file_path & headers & file & Hprep)|(_ & Hlocal & _)].
    + by rewrite (requests_sent _ _ _ _ _ _ _ Hprep).
    + rewrite (local_no_requests _ Hlocal). simpl. lia.
  - intros request_url file_path headers file e Hprep Hreply.
    split; [exact (requests_sent _ _ _ _ _ _ _ Hprep)|].
    rewrite (handler_sends _ _ _ _ _ _ _ Hprep), Hreply, dispatch_outer.
    split.
    + by intros ->.
    + intros -> ->. repeat split. unfold record. cbn [snd trace].
      rewrite elem_of_app, list_elem_of_singleton. by right.
Qed.

Lemma transport_faults_are_classified_witness :
  let env := Scenario.world true true (Scenario.fail_with ServerTimeoutError false) in
  let service := Scenario.call "/config/www/image.jpg" false in
  (run (async_service_handler env (make_closure Scenario.send_photo) service)).1
  = Raise (timeout_error Scenario.upload_url).
Proof.
  intros env service.
  assert (Prepared env (make_closure Scenario.send_photo) service
            Scenario.upload_url "/config/www/image.jpg" ∅
            (OpenedRB "/config/www/image.jpg")) as Hprep
    by (constructor; reflexivity).
  destruct (transport_faults_are_classified env (make_closure Scenario.send_photo)
              service) as [_ H].
  destruct (H _ _ _ _ _ Hprep eq_refl) as (_ & Htimeout & _).
  by destruct (Htimeout eq_refl).
Defined.

(** ** The body of an unwanted response *)

(** C8: an invocation that does not want the response never reads a body,
    whatever the status and the content type, and never returns a value:
    when the session returns a response the handler returns [None], and
    otherwise it raises. *)
Theorem unwanted_body_is_never_read env c service :
  return_response service = false ->
  let result := run (async_service_handler env c service) in
  reads (trace result.2) = []
  /\ (forall d, result.1 <> Return (Some d))
  /\ (forall request_url file_path headers file response,
        Prepared env c service request_url file_path headers file ->
        reply (transport env (sent_request c request_url headers file))
        = inr response ->
        result.1 = Return None).
Proof.
  intros Hwant result. subst result.
  destruct (handler_cases env c service)
    as [(request_url & file_path & headers & file & Hprep)
       |((e & Hraise) & Hlocal & _)].
  - split; [|split].
    + destruct (trace_sent _ _ _ _ _ _ _ Hprep) as (rest & -> & _ & Hreads).
      rewrite reads_app, (local_no_reads _ (preparation_local c file_path)).
      simpl. by apply Hreads.
    + intros d. rewrite (handler_sends _ _ _ _ _ _ _ Hprep).
      destruct (reply (transport env (sent_request c request_url headers file)))
        as [e|response].
      * rewrite dispatch_outer.
        by destruct (isinstance e cls_TimeoutError), (isinstance e cls_ClientError).
      * by rewrite with_response_run, Hwant.
    + intros request_url' file_path' headers' file' response Hprep' Hreply.
      by rewrite (handler_responds _ _ _ _ _ _ _ _ Hprep' Hreply), Hwant.
  - split; [by apply local_no_reads|]. split.
    + intros d. by rewrite Hraise.
    + intros request_url file_path headers file response Hprep Hreply.
      rewrite (handler_responds _ _ _ _ _ _ _ _ Hprep Hreply), Hwant in Hraise.
      done.
Qed.

Lemma unwanted_body_is_never_read_witness :
  let t := Scenario.respond 500 "application/json" (inl JSONDecodeError)
             (inr "error") true in
  let env := Scenario.world true true t in
  let service := Scenario.call "/config/www/image.jpg" false in
  let result :=
    run (async_service_handler env (make_closure Scenario.send_photo) service) in
  reads (trace result.2) = [] /\ result.1 = Return None.
Proof.
  intros t env service result.
  assert (Prepared env (make_closure Scenario.send_photo) service
            Scenario.upload_url "/config/www/image.jpg" ∅
            (OpenedRB "/config/www/image.jpg")) as Hprep
    by (constructor; reflexivity).
  destruct (unwanted_body_is_never_read env (make_closure Scenario.send_photo)
              service eq_refl) as (Hreads & _ & Hnone).
  split; [exact Hreads|]. exact (Hnone _ _ _ _ _ Hprep eq_refl).
Defined.

(** ** The [content_type] option *)

(** C9, as stated, fails: an empty [content_type] is set but not applied,
    and the templated [Content-Type] header is what is sent. *)
Lemma empty_content_type_is_not_applied :
  let cfg := Scenario.typed_photo "" in
  let env := Scenario.world true true Scenario.ok_json in
  let service := Scenario.call "/config/www/image.jpg" false in
  let result := run (async_service_handler env (make_closure cfg) service) in
  conf_content_type cfg = Some ""
  /\ (exists template, (CONTENT_TYPE, template) ∈ default [] (conf_headers cfg))
  /\ ((fun r => req_headers r ≫= (.!! CONTENT_TYPE)) <$> requests (trace result.2))
     = [Some "text/plain"].
Proof.
  split; [done|]. split; [|by vm_compute].
  exists "text/plain". apply list_elem_of_In. simpl. tauto.
Qed.

(** C9, amended: when the [content_type] option is a non-empty string, the
    request carries it as its [Content-Type] header, whatever the header
    templates give for that name, and every header of another name carries
    its rendered value.  The option is applied once all header templates
    are rendered: the request comes after the last render call. *)
Theorem content_type_option_wins env cfg service request_url file_path headers
    file value :
  let c := make_closure cfg in
  Prepared env c service request_url file_path headers file ->
  conf_content_type cfg = Some value ->
  value <> "" ->
  let result := run (async_service_handler env c service) in
  exists sent rest,
    trace result.2
    = (preparation c file_path
       ++ ev_request (sent_request c request_url headers file) :: rest)%list
    /\ requests (trace result.2) = [sent_request c request_url headers file]
    /\ req_headers (sent_request c request_url headers file) = Some sent
    /\ sent !! CONTENT_TYPE = Some value
    /\ forall name, name <> CONTENT_TYPE -> sent !! name = headers !! name.
Proof.
  intros c Hprep Hvalue Hnonempty result.
  destruct (trace_sent _ _ _ _ _ _ _ Hprep) as (rest & Htrace & _).
  exists (<[CONTENT_TYPE := value]> headers), rest.
  split; [exact Htrace|]. split; [exact (requests_sent _ _ _ _ _ _ _ Hprep)|].
  assert (final_headers c headers = <[CONTENT_TYPE := value]> headers) as Hfinal.
  { unfold final_headers, c. simpl. rewrite Hvalue. simpl.
    destruct (String.eqb_spec value ""); [done|]. done. }
  split; [|split].
  - unfold sent_request, or_None. simpl. rewrite Hfinal.
    rewrite bool_decide_eq_false_2; [done|].
    apply insert_non_empty.
  - apply lookup_insert_eq.
  - intros name Hname. by apply lookup_insert_ne.
Qed.

Lemma content_type_option_wins_witness :
  let cfg := Scenario.typed_photo "image/jpeg" in
  let env := Scenario.world true true Scenario.ok_json in
  let service := Scenario.call "/config/www/image.jpg" false in
  let result := run (async_service_handler env (make_closure cfg) service) in
  ((fun r => req_headers r ≫= (.!! CONTENT_TYPE)) <$> requests (trace result.2))
  = [Some "image/jpeg"].
Proof.
  intros cfg env service result.
  assert (Prepared env (make_closure cfg) service
            Scenario.upload_url "/config/www/image.jpg"
            (<["X-Token" := "abc"]> (<["Content-Type" := "text/plain"]> ∅))
            (OpenedRB "/config/www/image.jpg")) as Hprep
    by (constructor; reflexivity).
  assert ("image/jpeg" <> "") as Hnonempty by discriminate.
  destruct (content_type_option_wins env cfg service _ _ _ _ "image/jpeg"
              Hprep eq_refl Hnonempty)
    as (sent & rest & _ & Hrequests & Hsent & Hvalue & _).
  subst result. rewrite Hrequests. cbn [fmap list_fmap]. rewrite Hsent.
  cbn [mbind option_bind]. by rewrite Hvalue.
Defined.

(** ** No headers at all *)

(** C10: for a command with no header templates and no [content_type]
    option, every request the handler sends has [None] for its headers,
    not an empty map. *)
Theorem no_headers_means_None env cfg service :
  default [] (conf_headers cfg) = [] ->
  conf_content_type cfg = None ->
  let result := run (async_service_handler env (make_closure cfg) service) in
  forall request, request ∈ requests (trace result.2) ->
    req_headers request = None.
Proof.
  intros Hheaders Hoption result request. subst result.
  destruct (handler_cases env (make_closure cfg) service)
    as [(request_url & file_path & headers & file & Hprep)|(_ & Hlocal & _)].
  - rewrite (requests_sent _ _ _ _ _ _ _ Hprep).
    intros ->%list_elem_of_singleton.
    destruct Hprep as [_ _ _ Hresolved _]. simpl in Hresolved.
    rewrite Hheaders in Hresolved. simpl in Hresolved.
    injection Hresolved as <-.
    unfold sent_request, final_headers. simpl. by rewrite Hoption.
  - rewrite (local_no_requests _ Hlocal). by intros ?%elem_of_nil.
Qed.

Lemma no_headers_means_None_witness :
  let env := Scenario.world true true Scenario.ok_json in
  let service := Scenario.call "/config/www/image.jpg" true in
  let result :=
    run (async_service_handler env (make_closure Scenario.send_photo) service) in
  req_headers <$> requests (trace result.2) = [None].
Proof.
  intros env service result.
  pose proof (no_headers_means_None env Scenario.send_photo service
                eq_refl eq_refl) as H.
  simpl in H.
  assert (exists request, requests (trace result.2) = [request]) as [request Hone]
    by (eexists; vm_compute; reflexivity).
  rewrite Hone in *. simpl. f_equal. apply H.
  subst result. rewrite Hone. apply list_elem_of_singleton. reflexivity.
Defined.

(** * The service registry and its reload *)

(** ** Registered services *)

(** [homeassistant.core.SupportsResponse]. *)
Inductive SupportsResponse :=
| SupportsResponse_NONE
| SupportsResponse_OPTIONAL
| SupportsResponse_ONLY.

(** A call schema, by the keys it requires. *)
Record Schema := { required : list string }.

(** [CALL_SCHEMA]: the [file] key is required. *)
Definition CALL_SCHEMA : Schema := {| required := [CONF_FILE] |}.

(** The keys a schema requires and a call does not give. *)
Definition missing (schema : Schema) (service : ServiceCall) : list string :=
  List.filter (fun key => bool_decide (data service !! key = None))
    (required schema).

(** The function a service runs. *)
Inductive ServiceFunc :=
| rest_command (c : Closure)
| reload_service.

(** The arguments of [hass.services.async_register], the domain and the
    name apart. *)
Record Service := {
  service_func : ServiceFunc;
  schema : option Schema;
  supports_response : SupportsResponse
}.

(** The services of [DOMAIN], by name.  (The description that
    [async_set_service_schema] attaches to a name is kept elsewhere by the
    host and is left out.) *)
Abbreviation Registry := (gmap string Service).

Definition async_register (name : string) (service : Service) (services : Registry)
  : Registry :=
  <[name := service]> services.

Definition async_remove (name : string) (services : Registry) : Registry :=
  delete name services.

(** [hass.services.async_services_for_domain(DOMAIN)], as the names it is
    iterated for. *)
Definition async_services_for_domain (services : Registry) : list string :=
  (map_to_list services).*1.

(** The service [async_register_rest_command] registers: the handler, no
    schema, an optional response. *)
Definition rest_service (command_config : CommandConfig) : Service :=
  {| service_func := rest_command (make_closure command_config);
     schema := None;
     supports_response := SupportsResponse_OPTIONAL |}.

Definition async_register_rest_command (name : string)
    (command_config : CommandConfig) (services : Registry) : Registry :=
  async_register name (rest_service command_config) services.

(** The reload service: the empty schema, no response. *)
Definition reload_entry : Service :=
  {| service_func := reload_service;
     schema := Some {| required := [] |};
     supports_response := SupportsResponse_NONE |}.

(** [async_setup]: one service per command of the configuration, then the
    reload service. *)
Definition async_setup (config : gmap string CommandConfig) : Registry :=
  async_register SERVICE_RELOAD reload_entry
    (foldl (fun services item => async_register_rest_command item.1 item.2 services)
       ∅ (map_to_list config)).

(** ** Coroutines on the event loop *)

(** A coroutine over a state [S]: it runs synchronous statements, reads the
    state, and awaits an answer [X] from outside.  An await is where the
    event loop may run anything else, so the state at an await, and the
    state after the coroutine has finished, are what the rest of the
    system can see; the states between two synchronous statements are
    not. *)
Inductive Coroutine (S X R : Type) : Type :=
| co_finish (r : Outcome R)
| co_sync (statement : S -> S) (k : Coroutine S X R)
| co_read (k : S -> Coroutine S X R)
| co_await (k : X -> Coroutine S X R).
Arguments co_finish {S X R} r.
Arguments co_sync {S X R} statement k.
Arguments co_read {S X R} k.
Arguments co_await {S X R} k.

(** The state and the outcome a coroutine finishes with. *)
Fixpoint finish {S X R} (c : Coroutine S X R) (x : X) (s : S) : S * Outcome R :=
  match c with
  | co_finish r => (s, r)
  | co_sync statement k => finish k x (statement s)
  | co_read k => finish (k s) x s
  | co_await k => finish (k x) x s
  end.

(** The states at its awaits. *)
Fixpoint suspended {S X R} (c : Coroutine S X R) (x : X) (s : S) : list S :=
  match c with
  | co_finish _ => []
  | co_sync statement k => suspended k x (statement s)
  | co_read k => suspended (k s) x s
  | co_await k => s :: suspended (k x) x s
  end.


(** The states after each of its synchronous statements. *)
Fixpoint transient {S X R} (c : Coroutine S X R) (x : X) (s : S) : list S :=
  match c with
  | co_finish _ => []
  | co_sync statement k => statement s :: transient k x (statement s)
  | co_read k => transient (k s) x s
  | co_await k => transient (k x) x s
  end.

(** ** The reload handler *)

(** What [async_integration_yaml_config] gives: [None] when the
    configuration cannot be parsed, and otherwise the configuration, of
    which the handler reads the section of [DOMAIN]; [conf[DOMAIN]] raises
    [KeyError] when there is no such section. *)
Definition Conf := option (gmap string CommandConfig).

(** The first loop: every existing service but the reload one is removed. *)
Fixpoint remove_existing {R} (existing : list string)
    (k : Coroutine Registry (option Conf) R) : Coroutine Registry (option Conf) R :=
  match existing with
  | [] => k
  | existing_service :: rest =>
      if decide (existing_service = SERVICE_RELOAD)
      then remove_existing rest k
      else co_sync (async_remove existing_service) (remove_existing rest k)
  end.

(** The second loop: every command of the new configuration is registered. *)
Fixpoint register_all {R} (items : list (string * CommandConfig))
    (k : Coroutine Registry (option Conf) R) : Coroutine Registry (option Conf) R :=
  match items with
  | [] => k
  | (name, command_config) :: rest =>
      co_sync (async_register_rest_command name command_config)
        (register_all rest k)
  end.

(** [reload_service_handler], on the runs in which the loader answers and
    every registration goes through: its one await is the first statement.
    ([Raising.reload_service_handler], further down, adds the exceptions
    the loader and a registration can raise.) *)
Definition reload_service_handler : Coroutine Registry (option Conf) unit :=
  co_await (fun conf =>
    match conf with
    | None => co_finish (Return tt)
    | Some conf =>
        co_read (fun services =>
          remove_existing (async_services_for_domain services)
            match conf with
            | None => co_finish (Raise KeyError)
            | Some commands =>
                register_all (map_to_list commands) (co_finish (Return tt))
            end)
    end).

(** The registry after a reload: the new definitions, and the reload entry
    of the registry it started from. *)
Definition post_reload (pre : Registry) (commands : gmap string CommandConfig)
  : Registry :=
  (rest_service <$> commands)
  ∪ filter (fun entry => entry.1 = SERVICE_RELOAD) pre.

(** ** The two loops *)

(** The registry after the first loop over [existing]. *)
Definition removed (existing : list string) (services : Registry) : Registry :=
  filter (fun entry => entry.1 = SERVICE_RELOAD \/ entry.1 ∉ existing) services.

(** The registry after the second loop over [items]. *)
Definition registered (items : list (string * CommandConfig)) (services : Registry)
  : Registry :=
  foldl (fun services item => async_register_rest_command item.1 item.2 services)
    services items.

Lemma removed_nil (services : Registry) : removed [] services = services.
Proof.
  apply map_eq. intros name. apply option_eq. intros service.
  unfold removed. rewrite map_lookup_filter_Some. cbn [fst].
  split; [by intros [? _]|]. intros H. split; [done|]. right. apply not_elem_of_nil.
Qed.

Lemma removed_cons_reload existing (services : Registry) :
  removed (SERVICE_RELOAD :: existing) services = removed existing services.
Proof.
  apply map_eq. intros name. apply option_eq. intros service.
  unfold removed. rewrite !map_lookup_filter_Some. cbn [fst].
  rewrite not_elem_of_cons.
  destruct (decide (name = SERVICE_RELOAD)); tauto.
Qed.

Lemma removed_cons_other name existing (services : Registry) :
  name <> SERVICE_RELOAD ->
  removed (name :: existing) services = removed existing (async_remove name services).
Proof.
  intros Hname. apply map_eq. intros name'. apply option_eq. intros service.
  unfold removed, async_remove. rewrite !map_lookup_filter_Some. cbn [fst].
  rewrite not_elem_of_cons.
  destruct (decide (name = name')) as [<-|Hne].
  - rewrite lookup_delete_eq. split; [|by intros [? _]].
    intros [_ [?|[? _]]]; congruence.
  - rewrite lookup_delete_ne by done. intuition congruence.
Qed.

(** Of a whole registry the first loop keeps the reload entry only. *)
Lemma removed_all (services : Registry) :
  removed (async_services_for_domain services) services
  = filter (fun entry => entry.1 = SERVICE_RELOAD) services.
Proof.
  apply map_eq. intros name. apply option_eq. intros service.
  unfold removed, async_services_for_domain.
  rewrite !map_lookup_filter_Some. cbn [fst].
  split; [|tauto].
  intros [Hlookup [Hreload|Hnot]]; [done|].
  exfalso. apply Hnot. apply list_elem_of_fmap.
  exists (name, service). split; [done|]. by apply elem_of_map_to_list.
Qed.

Lemma registered_list_to_map items (services : Registry) :
  NoDup items.*1 ->
  registered items services
  = (rest_service <$> list_to_map items) ∪ services.
Proof.
  revert services. induction items as [|[name command_config] rest IH];
    intros services Hnodup.
  - unfold registered. simpl. by rewrite fmap_empty, (left_id_L ∅ (∪)).
  - rewrite fmap_cons in Hnodup. apply NoDup_cons in Hnodup as [Hfresh Hnodup].
    change (registered ((name, command_config) :: rest) services)
      with (registered rest (async_register_rest_command name command_config services)).
    rewrite (IH _ Hnodup).
    unfold async_register_rest_command, async_register.
    rewrite list_to_map_cons, fmap_insert, <- insert_union_l.
    symmetry. apply insert_union_r.
    rewrite lookup_fmap. by rewrite (not_elem_of_list_to_map_1 _ _ Hfresh).
Qed.

Lemma registered_map_to_list (commands : gmap string CommandConfig)
    (services : Registry) :
  registered (map_to_list commands) services
  = (rest_service <$> commands) ∪ services.
Proof.
  rewrite registered_list_to_map by apply NoDup_fst_map_to_list.
  by rewrite list_to_map_to_list.
Qed.

Section Loops.
Context {R : Type}.
Implicit Types k : Coroutine Registry (option Conf) R.

Lemma finish_remove_existing existing k conf services :
  finish (remove_existing existing k) conf services
  = finish k conf (removed existing services).
Proof.
  revert services. induction existing as [|name rest IH]; intros services; simpl.
  - by rewrite removed_nil.
  - destruct (decide (name = SERVICE_RELOAD)) as [->|Hname].
    + by rewrite IH, removed_cons_reload.
    + simpl. by rewrite IH, removed_cons_other.
Qed.

Lemma suspended_remove_existing existing k conf services :
  suspended (remove_existing existing k) conf services
  = suspended k conf (removed existing services).
Proof.
  revert services. induction existing as [|name rest IH]; intros services; simpl.
  - by rewrite removed_nil.
  - destruct (decide (name = SERVICE_RELOAD)) as [->|Hname].
    + by rewrite IH, removed_cons_reload.
    + simpl. by rewrite IH, removed_cons_other.
Qed.

Lemma finish_register_all items k conf services :
  finish (register_all items k) conf services
  = finish k conf (registered items services).
Proof.
  revert services.
  induction items as [|[name command_config] rest IH]; intros services;
    simpl; [done|].
  by rewrite IH.
Qed.

Lemma suspended_register_all items k conf services :
  suspended (register_all items k) conf services
  = suspended k conf (registered items services).
Proof.
  revert services.
  induction items as [|[name command_config] rest IH]; intros services;
    simpl; [done|].
  by rewrite IH.
Qed.
End Loops.

(** What a lookup finds after a reload. *)
Lemma lookup_post_reload (pre : Registry) commands name :
  post_reload pre commands !! name
  = match commands !! name with
    | Some command_config => Some (rest_service command_config)
    | None => if decide (name = SERVICE_RELOAD) then pre !! name else None
    end.
Proof.
  unfold post_reload. rewrite lookup_union, lookup_fmap.
  destruct (commands !! name) as [command_config|]; simpl.
  - by destruct (filter _ pre !! name).
  - rewrite (left_id_L None (∪)).
    apply option_eq. intros service. rewrite map_lookup_filter_Some. cbn [fst].
    destruct (decide (name = SERVICE_RELOAD)); [tauto|].
    split; [tauto|done].
Qed.

(** ** Reload *)

(** Between two of its synchronous statements the handler does leave the
    registry in states that are neither the old set nor the new one: here,
    with [send_photo] and [send_video] registered and a new configuration
    that defines [send_audio] only, it passes through a registry that has
    lost the old commands and has not got the new one yet. *)
Example reload_passes_through_a_mix :
  let pre := async_setup {[ "send_photo" := Scenario.send_photo;
                            "send_video" := Scenario.send_photo ]} in
  let conf := Some (Some {[ "send_audio" := Scenario.send_photo ]}) in
  exists mix,
    mix ∈ transient reload_service_handler conf pre
    /\ mix !! "send_photo" = None
    /\ mix !! "send_audio" = None
    /\ pre !! "send_photo" = Some (rest_service Scenario.send_photo)
    /\ (finish reload_service_handler conf pre).1 !! "send_audio"
       = Some (rest_service Scenario.send_photo).
Proof.
  eexists {[ SERVICE_RELOAD := reload_entry ]}. split.
  - apply list_elem_of_In. vm_compute. tauto.
  - by vm_compute.
Qed.

(** ** The required [file] parameter *)

(** C5: a call without [file] is not rejected with a classified error.
    [CALL_SCHEMA] would find the key missing, but the command is registered
    without a schema, so nothing checks the call before the handler runs;
    there [service.data.get("file")] is [None], [os.path.exists(None)]
    raises [TypeError], and that exception leaves the handler as it is,
    outside the five classified failures. *)
Theorem call_without_file_raises_TypeError :
  let env := Scenario.world true true Scenario.ok_json in
  let services := async_setup {[ "send_photo" := Scenario.send_photo ]} in
  let result :=
    run (async_service_handler env (make_closure Scenario.send_photo)
           Scenario.call_without_file) in
  missing CALL_SCHEMA Scenario.call_without_file = [CONF_FILE]
  /\ services !! "send_photo"
     = Some {| service_func := rest_command (make_closure Scenario.send_photo);
               schema := None;
               supports_response := SupportsResponse_OPTIONAL |}
  /\ result.1 = Raise TypeError
  /\ trace result.2 = [ev_render Scenario.upload_url; ev_exists None]
  /\ Taxonomy.classify TypeError = None.
Proof. by vm_compute. Qed.


(** * Further properties of the handler *)

Module Faults.
(** An engine that rejects the template [bad] and renders any other to
    itself; every path exists and opens. *)
Definition rejecting (bad : Template) (t : TransportReply) : Env :=
  {| async_render := fun template _ =>
       if String.eqb template bad then inl TemplateError else inr template;
     path_exists := fun _ => true;
     open_rb := fun path => inr (OpenedRB path);
     transport := fun _ => t |}.

(** A filesystem on which every path exists and none opens: [open] raises
    [e]. *)
Definition unreadable (e : Exception) (t : TransportReply) : Env :=
  {| async_render := fun template _ => inr template;
     path_exists := fun _ => true;
     open_rb := fun _ => inl e;
     transport := fun _ => t |}.

(** [send_photo] with three header templates. *)
Definition with_headers : CommandConfig :=
  {| conf_url := Scenario.upload_url;
     conf_method := http_put;
     conf_headers := Some [("X-First", "one"); ("X-Second", "{{ oops"); ("X-Third", "three")];
     conf_username := None;
     conf_password := Some "ignored";
     conf_timeout := 30;
     conf_content_type := None;
     conf_verify_ssl := false |}.
End Faults.

(** ** A header template that does not render *)

Lemma resolve_headers_stops env variables before name template after headers e :
  Forall (fun item => exists value, async_render env item.2 variables = inr value)
    before ->
  async_render env template variables = inl e ->
  resolve_headers env variables (before ++ (name, template) :: after) headers
  = inl e
  /\ header_events env variables (before ++ (name, template) :: after)
     = (map (fun item => ev_render item.2) before ++ [ev_render template])%list.
Proof.
  intros Hbefore Hfails. revert headers.
  induction Hbefore as [|[name' template'] before [value Hvalue] _ IH];
    intros headers; simpl.
  - by rewrite Hfails.
  - simpl in Hvalue. rewrite Hvalue. destruct (IH (<[name' := value]> headers))
      as [-> ->]. done.
Qed.

(** X1: when a header template does not render, the invocation raises that
    template's exception.  By then it has rendered the URL, checked the
    file and rendered the header templates that come before the failing
    one; it renders none of those after it, opens no file and sends no
    request. *)
Theorem header_failure_stops_the_invocation env c service request_url file_path
    before name template after e :
  async_render env (template_url c) (data service) = inr request_url ->
  data service !! "file" = Some file_path ->
  path_exists env file_path = true ->
  template_headers c = (before ++ (name, template) :: after)%list ->
  Forall (fun item => exists value,
              async_render env item.2 (data service) = inr value) before ->
  async_render env template (data service) = inl e ->
  run (async_service_handler env c service)
  = (Raise e,
     {| trace :=
          ([ev_render (template_url c); ev_exists (Some file_path)]
           ++ map (fun item => ev_render item.2) before
           ++ [ev_render template])%list;
        open_files := [] |}).
Proof.
  intros Hurl Hfile Hexists Hitems Hbefore Hfails.
  destruct (resolve_headers_stops env (data service) before name template after
              ∅ e Hbefore Hfails) as [Hresolve Hevents].
  rewrite <- Hitems in Hresolve, Hevents.
  rewrite (handler_header_fails _ _ _ _ Hurl _ Hfile Hexists _ Hresolve).
  by rewrite Hevents.
Qed.

Lemma header_failure_stops_the_invocation_witness :
  let env := Faults.rejecting "{{ oops" Scenario.ok_json in
  let service := Scenario.call "/config/www/image.jpg" true in
  run (async_service_handler env (make_closure Faults.with_headers) service)
  = (Raise TemplateError,
     {| trace := [ev_render Scenario.upload_url;
                  ev_exists (Some "/config/www/image.jpg");
                  ev_render "one"; ev_render "{{ oops"];
        open_files := [] |}).
Proof.
  intros env service.
  apply (header_failure_stops_the_invocation env (make_closure Faults.with_headers)
           service Scenario.upload_url "/config/www/image.jpg"
           [("X-First", "one")] "X-Second" "{{ oops" [("X-Third", "three")]
           TemplateError); try reflexivity.
  repeat constructor. by exists "one".
Defined.

(** ** A file that exists and does not open *)

(** X2: when the file exists but [open] raises, no request is sent and no
    file is left open.  The exception of [open] goes through the two outer
    clauses like one of the session: a [TimeoutError] is reported as the
    timeout of the request URL, an exception of no named class (a
    permission error, say) leaves the handler as it is. *)
Theorem open_failure_sends_nothing env c service request_url file_path headers e :
  async_render env (template_url c) (data service) = inr request_url ->
  data service !! "file" = Some file_path ->
  path_exists env file_path = true ->
  resolve_headers env (data service) (template_headers c) ∅ = inr headers ->
  open_rb env file_path = inl e ->
  let result := run (async_service_handler env c service) in
  requests (trace result.2) = []
  /\ open_files result.2 = []
  /\ last (preparation c file_path) = Some (ev_open (Some file_path))
  /\ result.1
     = Raise (if isinstance e cls_TimeoutError then timeout_error request_url
              else if isinstance e cls_ClientError then client_error request_url
              else e).
Proof.
  intros Hurl Hfile Hexists Hheaders Hopen result. subst result.
  rewrite (handler_open_fails _ _ _ _ Hurl _ Hfile Hexists _ _ Hheaders Hopen).
  rewrite dispatch_outer.
  pose proof (local_no_requests _ (preparation_local c file_path)) as Hnone.
  assert (last (preparation c file_path) = Some (ev_open (Some file_path)))
    as Hlast by (unfold preparation; by rewrite app_assoc, last_snoc).
  destruct (isinstance e cls_TimeoutError); [done|].
  destruct (isinstance e cls_ClientError); [|done].
  unfold record. cbn [fst snd trace open_files].
  by rewrite requests_app, Hnone.
Qed.

Lemma open_failure_sends_nothing_witness :
  let env := Faults.unreadable OSError Scenario.ok_json in
  let service := Scenario.call "/root/secret.bin" true in
  let result :=
    run (async_service_handler env (make_closure Scenario.send_photo) service) in
  requests (trace result.2) = [] /\ result.1 = Raise OSError.
Proof.
  intros env service result.
  destruct (open_failure_sends_nothing env (make_closure Scenario.send_photo)
              service Scenario.upload_url "/root/secret.bin" ∅ OSError
              eq_refl eq_refl eq_refl eq_refl eq_refl)
    as (Hnone & _ & _ & Hraise).
  by split.
Defined.

(** ** The headers of the request *)

Lemma resolve_headers_lookup env variables items acc headers :
  NoDup items.*1 ->
  resolve_headers env variables items acc = inr headers ->
  (forall name template, (name, template) ∈ items ->
     exists value,
       async_render env template variables = inr value
       /\ headers !! name = Some value)
  /\ (forall name, name ∉ items.*1 -> headers !! name = acc !! name).
Proof.
  revert acc. induction items as [|[name0 template0] rest IH]; intros acc Hnodup.
  - simpl. intros [= <-]. split; [|done]. by intros name template ?%elem_of_nil.
  - rewrite fmap_cons in Hnodup. apply NoDup_cons in Hnodup as [Hfresh Hnodup].
    cbn [fst] in Hfresh.
    simpl. destruct (async_render env template0 variables) as [e|value0] eqn:Hvalue;
      [done|].
    intros Hrest. destruct (IH _ Hnodup Hrest) as [Hin Hout]. split.
    + intros name template [[= -> ->]|Hmember]%elem_of_cons.
      * exists value0. split; [done|].
        by rewrite (Hout _ Hfresh), lookup_insert_eq.
      * by apply Hin.
    + intros name [Hne Hnot]%not_elem_of_cons.
      rewrite (Hout _ Hnot). by apply lookup_insert_ne.
Qed.

Lemma resolve_headers_non_empty env variables items acc headers :
  resolve_headers env variables items acc = inr headers ->
  acc <> ∅ \/ items <> [] ->
  headers <> ∅.
Proof.
  revert acc. induction items as [|[name0 template0] rest IH]; intros acc; simpl.
  - intros [= <-] [?|?]; done.
  - destruct (async_render env template0 variables) as [e|value0]; [done|].
    intros Hrest _. apply (IH _ Hrest). left. apply insert_non_empty.
Qed.

Lemma or_None_Some (headers : gmap string string) :
  headers <> ∅ -> or_None headers = Some headers.
Proof. intros H. unfold or_None. by rewrite bool_decide_eq_false_2. Qed.

Lemma final_headers_lookup c (headers : gmap string string) name :
  final_headers c headers !! name
  = if truthy (content_type_override c) && bool_decide (name = CONTENT_TYPE)
    then content_type_override c
    else headers !! name.
Proof.
  unfold final_headers.
  destruct (content_type_override c) as [value|] eqn:Hoption; simpl; [|done].
  destruct (String.eqb value ""); simpl; [done|].
  case_bool_decide as Hname.
  - subst name. by rewrite lookup_insert_eq.
  - by rewrite lookup_insert_ne.
Qed.

(** X3: the headers of the request are the header templates, each rendered
    with the variables of the call and sent under its own name, and the
    [Content-Type] of a non-empty [content_type] option; no other header is
    sent. *)
Theorem headers_are_the_rendered_templates env c service request_url file_path
    headers file :
  Prepared env c service request_url file_path headers file ->
  NoDup (template_headers c).*1 ->
  let request := sent_request c request_url headers file in
  requests (trace (run (async_service_handler env c service)).2) = [request]
  /\ (forall name template,
        (name, template) ∈ template_headers c ->
        name <> CONTENT_TYPE \/ truthy (content_type_override c) = false ->
        exists sent value,
          req_headers request = Some sent
          /\ async_render env template (data service) = inr value
          /\ sent !! name = Some value)
  /\ (forall sent name,
        req_headers request = Some sent ->
        is_Some (sent !! name) ->
        name ∈ (template_headers c).*1
        \/ (name = CONTENT_TYPE /\ truthy (content_type_override c) = true)).
Proof.
  intros Hprep Hnodup request.
  destruct (resolve_headers_lookup _ _ _ _ _ Hnodup (headers_render _ _ _ _ _ _ _ Hprep))
    as [Hin Hout].
  split; [exact (requests_sent _ _ _ _ _ _ _ Hprep)|]. split.
  - intros name template Hmember Hfree.
    destruct (Hin _ _ Hmember) as (value & Hvalue & Hlookup).
    assert (final_headers c headers !! name = Some value) as Hfinal.
    { rewrite final_headers_lookup.
      destruct Hfree as [Hname| ->]; [|done].
      rewrite (bool_decide_eq_false_2 _ Hname). by rewrite andb_false_r. }
    exists (final_headers c headers), value. split; [|done].
    unfold request, sent_request. simpl. apply or_None_Some.
    intros Hempty. by rewrite Hempty, lookup_empty in Hfinal.
  - intros sent name Hsent [value Hlookup].
    unfold request, sent_request, or_None in Hsent. simpl in Hsent.
    case_bool_decide; [done|]. injection Hsent as <-.
    rewrite final_headers_lookup in Hlookup.
    destruct (truthy (content_type_override c)); simpl in Hlookup.
    + case_bool_decide; [by right|]. left.
      destruct (decide (name ∈ (template_headers c).*1)) as [|Hnot]; [done|].
      by rewrite (Hout _ Hnot), lookup_empty in Hlookup.
    + left.
      destruct (decide (name ∈ (template_headers c).*1)) as [|Hnot]; [done|].
      by rewrite (Hout _ Hnot), lookup_empty in Hlookup.
Qed.

Lemma headers_are_the_rendered_templates_witness :
  let cfg := Scenario.typed_photo "image/jpeg" in
  let env := Scenario.world true true Scenario.ok_json in
  let service := Scenario.call "/config/www/image.jpg" false in
  let result := run (async_service_handler env (make_closure cfg) service) in
  ((fun r => req_headers r ≫= (.!! "X-Token")) <$> requests (trace result.2))
  = [Some "abc"].
Proof.
  intros cfg env service result.
  assert (Prepared env (make_closure cfg) service
            Scenario.upload_url "/config/www/image.jpg"
            (<["X-Token" := "abc"]> (<["Content-Type" := "text/plain"]> ∅))
            (OpenedRB "/config/www/image.jpg")) as Hprep
    by (constructor; reflexivity).
  assert (NoDup (template_headers (make_closure cfg)).*1) as Hnodup.
  { apply (bool_decide_unpack _). by vm_compute. }
  destruct (headers_are_the_rendered_templates _ _ _ _ _ _ _ Hprep Hnodup)
    as (Hrequests & Hin & _).
  destruct (Hin "X-Token" "abc") as (sent & value & Hsent & Hvalue & Hlookup).
  { apply list_elem_of_In. simpl. tauto. }
  { left. discriminate. }
  injection Hvalue as <-.
  subst result. rewrite Hrequests. cbn [fmap list_fmap]. rewrite Hsent.
  cbn [mbind option_bind]. by rewrite Hlookup.
Defined.

(** X4: the headers of the request are [None] exactly when the command has
    no header template and its [content_type] option is absent or empty;
    in every other case a non-empty map is passed. *)
Theorem headers_are_None_iff_nothing_to_send env c service request_url file_path
    headers file :
  Prepared env c service request_url file_path headers file ->
  let request := sent_request c request_url headers file in
  requests (trace (run (async_service_handler env c service)).2) = [request]
  /\ (req_headers request = None
      <-> template_headers c = [] /\ truthy (content_type_override c) = false)
  /\ (forall sent, req_headers request = Some sent -> sent <> ∅).
Proof.
  intros Hprep request.
  pose proof (headers_render _ _ _ _ _ _ _ Hprep) as Hresolved.
  split; [exact (requests_sent _ _ _ _ _ _ _ Hprep)|]. split.
  - unfold request, sent_request, or_None, final_headers. simpl. split.
    + case_bool_decide as Hempty; [|done]. intros _.
      destruct (truthy (content_type_override c)).
      { by destruct (insert_non_empty headers CONTENT_TYPE
                       (default "" (content_type_override c))). }
      split; [|done].
      destruct (template_headers c) as [|item rest] eqn:Hitems; [done|].
      exfalso. apply (resolve_headers_non_empty _ _ _ _ _ Hresolved); [|done].
      by right.
    + intros [Hitems ->]. rewrite Hitems in Hresolved. simpl in Hresolved.
      injection Hresolved as <-. by rewrite bool_decide_eq_true_2.
  - intros sent. unfold request, sent_request, or_None. simpl.
    case_bool_decide; [done|]. by intros [= <-].
Qed.

Lemma headers_are_None_iff_nothing_to_send_witness :
  let env := Scenario.world true true Scenario.ok_json in
  let service := Scenario.call "/config/www/image.jpg" false in
  req_headers
    (sent_request (make_closure (Scenario.typed_photo "")) Scenario.upload_url
       (<["X-Token" := "abc"]> (<["Content-Type" := "text/plain"]> ∅))
       (OpenedRB "/config/www/image.jpg"))
  <> None.
Proof.
  intros env service.
  assert (Prepared env (make_closure (Scenario.typed_photo "")) service
            Scenario.upload_url "/config/www/image.jpg"
            (<["X-Token" := "abc"]> (<["Content-Type" := "text/plain"]> ∅))
            (OpenedRB "/config/www/image.jpg")) as Hprep
    by (constructor; reflexivity).
  destruct (headers_are_None_iff_nothing_to_send _ _ _ _ _ _ _ Hprep)
    as (_ & [Hnone _] & _).
  intros Habsent. by destruct (Hnone Habsent).
Defined.

(** ** Exceptions of the body read *)

(** X5: the read of the body is inside the outer [try].  When a response is
    wanted and the read raises an exception that is none of the three
    decoding classes, a timeout is reported as the timeout of the request
    URL, another client error (a broken payload, say) is logged at error
    level and reported as the client error of the request URL, and any
    other exception leaves the handler as it is. *)
Theorem body_read_faults_reach_the_outer_clauses env c service request_url
    file_path headers file response e :
  Prepared env c service request_url file_path headers file ->
  reply (transport env (sent_request c request_url headers file)) = inr response ->
  return_response service = true ->
  attempted response = inl e ->
  isinstance e cls_JSONDecodeError = false ->
  isinstance e cls_AttributeError = false ->
  isinstance e cls_UnicodeDecodeError = false ->
  let result := run (async_service_handler env c service) in
  result.1
  = Raise (if isinstance e cls_TimeoutError then timeout_error request_url
           else if isinstance e cls_ClientError then client_error request_url
           else e)
  /\ trace result.2
     = (preparation c file_path
        ++ [ev_request (sent_request c request_url headers file);
            status_log response; read_event response]
        ++ (if negb (isinstance e cls_TimeoutError) && isinstance e cls_ClientError
            then [ev_log ERROR "Error fetching data: %s" [arg_exc e]]
            else []))%list.
Proof.
  intros Hprep Hreply Hwant Hfails Hjson Hattr Hunicode result. subst result.
  rewrite (handler_responds _ _ _ _ _ _ _ _ Hprep Hreply), Hwant, Hfails.
  cbn [negb]. cbv zeta. rewrite Hjson, Hattr, Hunicode. cbn [orb].
  rewrite dispatch_outer.
  destruct (isinstance e cls_TimeoutError), (isinstance e cls_ClientError);
    unfold record, after_request; cbn [fst snd trace negb andb];
    rewrite <- ?app_assoc; by rewrite ?app_nil_r.
Qed.

Lemma body_read_faults_reach_the_outer_clauses_witness :
  let t := Scenario.respond 200 "text/html" (inr "{}") (inl ClientError) true in
  let env := Scenario.world true true t in
  let service := Scenario.call "/config/www/image.jpg" true in
  (run (async_service_handler env (make_closure Scenario.send_photo) service)).1
  = Raise (client_error Scenario.upload_url).
Proof.
  intros t env service.
  assert (Prepared env (make_closure Scenario.send_photo) service
            Scenario.upload_url "/config/www/image.jpg" ∅
            (OpenedRB "/config/www/image.jpg")) as Hprep
    by (constructor; reflexivity).
  destruct (body_read_faults_reach_the_outer_clauses env _ service _ _ _ _ _
              ClientError Hprep eq_refl eq_refl eq_refl eq_refl eq_refl eq_refl)
    as [Hraise _].
  exact Hraise.
Defined.

(** ** From the configuration to the request *)

(** X6: the one request of an invocation is made with the method, the
    timeout and the TLS flag of the command's configuration, to the
    rendered URL, with the opened file as its only form field, [file].  It
    carries Basic authentication exactly when the configuration has a
    username, with the configured password or, without one, the empty
    password; a password without a username is ignored. *)
Theorem request_follows_the_configuration env cfg service request_url file_path
    headers file :
  Prepared env (make_closure cfg) service request_url file_path headers file ->
  exists request,
    requests (trace (run (async_service_handler env (make_closure cfg) service)).2)
    = [request]
    /\ req_method request = conf_method cfg
    /\ req_timeout request = conf_timeout cfg
    /\ req_verify_ssl request = conf_verify_ssl cfg
    /\ async_render env (conf_url cfg) (data service) = inr (req_url request)
    /\ open_rb env file_path = inr file
    /\ req_data request = [("file", file)]
    /\ req_auth request
       = match conf_username cfg, conf_password cfg with
         | Some username, Some password =>
             Some {| login := username; password := password |}
         | Some username, None => Some {| login := username; password := "" |}
         | None, _ => None
         end.
Proof.
  intros Hprep. exists (sent_request (make_closure cfg) request_url headers file).
  split; [exact (requests_sent _ _ _ _ _ _ _ Hprep)|].
  destruct Hprep as [Hurl _ _ _ Hopen]. simpl in *.
  repeat split; try done.
  by destruct (conf_username cfg), (conf_password cfg).
Qed.

Lemma request_follows_the_configuration_witness :
  let cfg := Scenario.typed_photo "image/jpeg" in
  let env := Scenario.world true true Scenario.ok_json in
  let service := Scenario.call "/config/www/image.jpg" false in
  req_auth <$> requests (trace (run (async_service_handler env (make_closure cfg)
                                       service)).2)
  = [Some {| login := "u"; password := "p" |}].
Proof.
  intros cfg env service.
  assert (Prepared env (make_closure cfg) service
            Scenario.upload_url "/config/www/image.jpg"
            (<["X-Token" := "abc"]> (<["Content-Type" := "text/plain"]> ∅))
            (OpenedRB "/config/www/image.jpg")) as Hprep
    by (constructor; reflexivity).
  destruct (request_follows_the_configuration _ _ _ _ _ _ _ Hprep)
    as (request & -> & _ & _ & _ & _ & _ & _ & Hauth).
  cbn [fmap list_fmap]. by rewrite Hauth.
Defined.

(** ** Records at error level *)

Lemma header_events_preflight env variables items :
  Forall is_preflight (header_events env variables items).
Proof.
  induction items as [|[header_name template_header] rest IH]; simpl.
  - constructor.
  - constructor; [exact I|].
    destruct (async_render env template_header variables); [constructor|done].
Qed.

Lemma status_log_not_error response format args :
  status_log response <> ev_log ERROR format args.
Proof. unfold status_log. by destruct (Z.ltb (status response) BAD_REQUEST). Qed.

(** The error record of the second outer clause is in the trace only when
    that clause ran. *)
Lemma dispatch_outer_error_record request_url e s format args :
  ev_log ERROR format args ∉ trace s ->
  ev_log ERROR format args
    ∈ trace (dispatch (outer_clauses request_url) e s).2 ->
  (dispatch (outer_clauses request_url) e s).1 = Raise (client_error request_url)
  /\ format = "Error fetching data: %s"
  /\ args = [arg_exc e]
  /\ isinstance e cls_ClientError = true.
Proof.
  intros Hclean. rewrite dispatch_outer.
  destruct (isinstance e cls_TimeoutError); [done|].
  destruct (isinstance e cls_ClientError); [|done].
  unfold record. cbn [fst snd trace].
  rewrite elem_of_app, list_elem_of_singleton.
  intros [Hin|[= -> ->]]; [done|]. done.
Qed.

(** X7: a record at error level is logged only by the clause for client
    errors: when the trace of an invocation holds one, the invocation has
    failed with the client error of the rendered URL, and the record is
    that clause's, with the exception it caught.  No other failure, a
    timeout and a decoding error included, is logged at error level. *)
Theorem error_records_mean_client_errors env c service format args :
  let result := run (async_service_handler env c service) in
  ev_log ERROR format args ∈ trace result.2 ->
  exists request_url e,
    async_render env (template_url c) (data service) = inr request_url
    /\ result.1 = Raise (client_error request_url)
    /\ format = "Error fetching data: %s"
    /\ args = [arg_exc e]
    /\ isinstance e cls_ClientError = true
    /\ isinstance e cls_TimeoutError = false.
Proof.
  intros result. subst result.
  assert (forall request_url e s,
             ev_log ERROR format args ∉ trace s ->
             ev_log ERROR format args
               ∈ trace (dispatch (outer_clauses request_url) e s).2 ->
             (dispatch (outer_clauses request_url) e s).1
             = Raise (client_error request_url)
             /\ format = "Error fetching data: %s"
             /\ args = [arg_exc e]
             /\ isinstance e cls_ClientError = true
             /\ isinstance e cls_TimeoutError = false) as Houter.
  { intros request_url e s Hclean Hin.
    destruct (dispatch_outer_error_record _ _ _ _ _ Hclean Hin)
      as (Hraise & -> & -> & Hclient).
    repeat split; try done.
    rewrite dispatch_outer in Hin.
    destruct (isinstance e cls_TimeoutError); [|done]. by destruct Hclean. }
  assert (forall file_path, ev_log ERROR format args ∉ preparation c file_path)
    as Hprep_clean.
  { intros file_path. apply not_in_preparation. by intros []. }
  destruct (async_render env (template_url c) (data service))
    as [e|request_url] eqn:Hurl.
  { rewrite (handler_url_fails _ _ _ _ Hurl). simpl.
    rewrite list_elem_of_singleton. done. }
  destruct (data service !! "file") as [file_path|] eqn:Hfile.
  2:{ rewrite (handler_no_file _ _ _ _ Hurl Hfile). simpl.
      rewrite !elem_of_cons, elem_of_nil. by intros [|[|]]. }
  destruct (path_exists env file_path) eqn:Hexists.
  2:{ rewrite (handler_file_missing _ _ _ _ Hurl _ Hfile Hexists). simpl.
      rewrite !elem_of_cons, elem_of_nil. by intros [|[|]]. }
  destruct (resolve_headers env (data service) (template_headers c) ∅)
    as [e|headers] eqn:Hheaders.
  { rewrite (handler_header_fails _ _ _ _ Hurl _ Hfile Hexists _ Hheaders).
    cbn [snd trace]. rewrite elem_of_app, !elem_of_cons, elem_of_nil.
    intros [[|[|[]]]|Hin]; try done.
    pose proof (header_events_preflight env (data service) (template_headers c))
      as Hall.
    rewrite Forall_forall in Hall. by destruct (Hall _ Hin). }
  destruct (open_rb env file_path) as [e|file] eqn:Hopen.
  { rewrite (handler_open_fails _ _ _ _ Hurl _ Hfile Hexists _ _ Hheaders Hopen).
    intros Hin. exists request_url, e. split; [done|].
    apply (Houter request_url e
             {| trace := preparation c file_path; open_files := [] |}
             (Hprep_clean file_path) Hin). }
  assert (Prepared env c service request_url file_path headers file) as Hprep
    by by constructor.
  assert (ev_log ERROR format args
            ∉ trace (after_request env c request_url file_path headers file))
    as Hclean.
  { unfold after_request. cbn [trace].
    rewrite elem_of_app, list_elem_of_singleton.
    intros [Hin|Hin]; [by apply (Hprep_clean file_path)|done]. }
  rewrite (handler_sends _ _ _ _ _ _ _ Hprep).
  destruct (reply (transport env (sent_request c request_url headers file)))
    as [e|response].
  { intros Hin. exists request_url, e. split; [done|].
    apply (Houter _ _ _ Hclean Hin). }
  rewrite with_response_run.
  destruct (return_response service); cbn [negb].
  2:{ unfold record. cbn [snd trace]. rewrite elem_of_app, list_elem_of_singleton.
      intros [Hin|Hin]; [done|]. symmetry in Hin.
      by apply status_log_not_error in Hin. }
  cbv zeta.
  assert (ev_log ERROR format args
            ∉ trace (record (after_request env c request_url file_path headers file)
                       [status_log response; read_event response])) as Hclean'.
  { unfold record. cbn [trace]. rewrite elem_of_app, !elem_of_cons, elem_of_nil.
    intros [Hin|[Hin|[Hin|[]]]]; [done| |].
    - symmetry in Hin. by apply status_log_not_error in Hin.
    - symmetry in Hin. by apply read_event_not_log in Hin. }
  destruct (attempted response) as [e|body]; [|done].
  destruct (isinstance e cls_JSONDecodeError || isinstance e cls_AttributeError);
    [done|].
  destruct (isinstance e cls_UnicodeDecodeError); [done|].
  intros Hin. exists request_url, e. split; [done|].
  apply (Houter _ _ _ Hclean' Hin).
Qed.

Lemma error_records_mean_client_errors_witness :
  let env := Scenario.world true true (Scenario.fail_with ClientError false) in
  let service := Scenario.call "/config/www/image.jpg" false in
  (run (async_service_handler env (make_closure Scenario.send_photo) service)).1
  = Raise (client_error Scenario.upload_url).
Proof.
  intros env service.
  destruct (error_records_mean_client_errors env (make_closure Scenario.send_photo)
              service "Error fetching data: %s" [arg_exc ClientError])
    as (request_url & e & Hurl & Hraise & _).
  - apply list_elem_of_In. vm_compute. tauto.
  - injection Hurl as <-. exact Hraise.
Defined.


(** * Further properties of the registry *)

(** ** Setup *)




(** ** Reload after setup, and reload after reload *)




Lemma finish_reload (pre : Registry) commands :
  finish reload_service_handler (Some (Some commands)) pre
  = (post_reload pre commands, Return tt).
Proof.
  simpl. rewrite finish_remove_existing, finish_register_all. simpl.
  by rewrite registered_map_to_list, removed_all.
Qed.

(** X10: a reload keeps nothing of the commands registered before it: after
    two reloads the registry is what the second alone would have made of
    the original one, provided the first configuration had no command
    called [reload]. *)
Theorem reload_forgets_the_previous_reload (pre : Registry)
    (first second : gmap string CommandConfig) :
  first !! SERVICE_RELOAD = None ->
  (finish reload_service_handler (Some (Some second))
     (finish reload_service_handler (Some (Some first)) pre).1).1
  = (finish reload_service_handler (Some (Some second)) pre).1.
Proof.
  intros Hfree. rewrite !finish_reload. cbn [fst].
  apply map_eq. intros name. rewrite !lookup_post_reload.
  destruct (second !! name); [done|].
  destruct (decide (name = SERVICE_RELOAD)) as [->|]; [|done].
  by rewrite Hfree.
Qed.

Lemma reload_forgets_the_previous_reload_witness :
  let pre := async_setup {[ "send_photo" := Scenario.send_photo ]} in
  let first : gmap string CommandConfig :=
    {[ "send_video" := Scenario.send_photo ]} in
  let second : gmap string CommandConfig :=
    {[ "send_audio" := Scenario.send_photo ]} in
  (finish reload_service_handler (Some (Some second))
     (finish reload_service_handler (Some (Some first)) pre).1).1 !! "send_video"
  = None.
Proof.
  intros pre first second.
  assert (first !! SERVICE_RELOAD = None) as Hfree by reflexivity.
  rewrite (reload_forgets_the_previous_reload pre first second Hfree).
  by vm_compute.
Defined.

(** ** A command called [reload] *)



(** ** The states a reload passes through *)

Section Transient.
Context {R : Type} (P : Registry -> Prop).
Implicit Types k : Coroutine Registry (option Conf) R.

Lemma transient_remove_existing existing k conf services :
  P services ->
  (forall name services', name <> SERVICE_RELOAD -> P services' ->
     P (async_remove name services')) ->
  (forall services', P services' -> Forall P (transient k conf services')) ->
  Forall P (transient (remove_existing existing k) conf services).
Proof.
  intros Hstart Hremove Hk. revert services Hstart.
  induction existing as [|name rest IH]; intros services Hstart; simpl.
  - by apply Hk.
  - destruct (decide (name = SERVICE_RELOAD)) as [->|Hname]; [by apply IH|].
    simpl. constructor; [by apply Hremove|]. apply IH. by apply Hremove.
Qed.

Lemma transient_register_all items k conf services :
  P services ->
  (forall name command_config services',
     (name, command_config) ∈ items -> P services' ->
     P (async_register_rest_command name command_config services')) ->
  (forall services', P services' -> Forall P (transient k conf services')) ->
  Forall P (transient (register_all items k) conf services).
Proof.
  intros Hstart Hregister Hk. revert services Hstart.
  induction items as [|[name command_config] rest IH]; intros services Hstart;
    simpl.
  - by apply Hk.
  - assert (P (async_register_rest_command name command_config services)) as Hnext.
    { apply Hregister; [|done]. by left. }
    constructor; [done|]. apply IH; [|done].
    intros name' command_config' services' Hin. apply Hregister. by right.
Qed.
End Transient.

(** X12: the reload service stays registered all through a reload: in every
    registry the handler passes through, between any two of its removals
    and registrations, the reload name holds the entry it held before,
    provided the new configuration has no command called [reload]. *)
Theorem reload_service_survives_every_step (pre : Registry)
    (commands : gmap string CommandConfig) entry :
  pre !! SERVICE_RELOAD = Some entry ->
  commands !! SERVICE_RELOAD = None ->
  Forall (fun services : Registry => services !! SERVICE_RELOAD = Some entry)
    (transient reload_service_handler (Some (Some commands)) pre)
  /\ (finish reload_service_handler (Some (Some commands)) pre).1 !! SERVICE_RELOAD
     = Some entry.
Proof.
  intros Hentry Hfree. split.
  - simpl. apply transient_remove_existing; [done| |].
    { intros name services Hname Hkept. unfold async_remove.
      by rewrite lookup_delete_ne. }
    intros services Hkept. apply transient_register_all; [done| |].
    { intros name command_config services' Hin Hkept'.
      unfold async_register_rest_command, async_register.
      rewrite lookup_insert_ne; [done|].
      intros ->. apply elem_of_map_to_list in Hin. congruence. }
    intros services' _. constructor.
  - rewrite finish_reload. cbn [fst].
    by rewrite lookup_post_reload, Hfree, decide_True.
Qed.

Lemma reload_service_survives_every_step_witness :
  let pre := async_setup {[ "send_photo" := Scenario.send_photo;
                            "send_video" := Scenario.send_photo ]} in
  let commands : gmap string CommandConfig :=
    {[ "send_audio" := Scenario.send_photo ]} in
  Forall (fun services : Registry => services !! SERVICE_RELOAD = Some reload_entry)
    (transient reload_service_handler (Some (Some commands)) pre)
  /\ length (transient reload_service_handler (Some (Some commands)) pre) = 3%nat.
Proof.
  intros pre commands.
  assert (pre !! SERVICE_RELOAD = Some reload_entry) as Hentry by reflexivity.
  assert (commands !! SERVICE_RELOAD = None) as Hfree by reflexivity.
  destruct (reload_service_survives_every_step pre commands reload_entry
              Hentry Hfree) as [Hall _].
  split; [exact Hall|]. by vm_compute.
Defined.

(** ** A configuration without the component's section *)

(** X13: when the new configuration parses but has no section for the
    component, the handler has already removed every command when it looks
    the section up: it raises [KeyError] and leaves nothing but the reload
    entry registered. *)
Theorem reload_without_section_removes_everything (pre : Registry) :
  (finish reload_service_handler (Some None) pre).2 = Raise KeyError
  /\ forall name,
       (finish reload_service_handler (Some None) pre).1 !! name
       = if decide (name = SERVICE_RELOAD) then pre !! name else None.
Proof.
  simpl. rewrite finish_remove_existing, removed_all. simpl.
  split; [done|]. intros name.
  apply option_eq. intros service. rewrite map_lookup_filter_Some. cbn [fst].
  destruct (decide (name = SERVICE_RELOAD)); [tauto|].
  split; [tauto|done].
Qed.


(** * The ways an invocation ends *)

Lemma resolve_headers_fails env variables items acc e :
  resolve_headers env variables items acc = inl e ->
  exists name template,
    (name, template) ∈ items /\ async_render env template variables = inl e.
Proof.
  revert acc. induction items as [|[name0 template0] rest IH]; intros acc; simpl;
    [done|].
  destruct (async_render env template0 variables) as [e0|value0] eqn:Hvalue.
  - intros [= ->]. exists name0, template0. split; [by left|done].
  - intros Hrest. destruct (IH _ Hrest) as (name & template & Hin & Hfails).
    exists name, template. split; [by right|done].
Qed.

(** What the outer clauses make of an exception: one of the two errors of
    the request URL, or the exception itself. *)
Lemma dispatch_outer_outcome request_url e s :
  exists e',
    (dispatch (outer_clauses request_url) e s).1 = Raise e'
    /\ (e' = e \/ e' = timeout_error request_url \/ e' = client_error request_url).
Proof.
  rewrite dispatch_outer.
  destruct (isinstance e cls_TimeoutError); [eauto|].
  destruct (isinstance e cls_ClientError); eauto.
Qed.

(** X14: an invocation fails in these ways and no other.  The exception it
    raises is one that a collaborator raised (the template engine on the
    URL or on a header, [os.path.exists] on a missing [file] parameter,
    [open], the session, the read of the body), or the file-not-found
    error of a path that does not exist, or one of the timeout, client and
    decoding errors built with the rendered URL. *)
Theorem failures_of_an_invocation env c service e :
  (run (async_service_handler env c service)).1 = Raise e ->
  (exists template,
      (template = template_url c \/ template ∈ (template_headers c).*2)
      /\ async_render env template (data service) = inl e)
  \/ (data service !! "file" = None /\ e = TypeError)
  \/ (exists file_path,
        data service !! "file" = Some file_path
        /\ path_exists env file_path = false
        /\ e = file_not_found (Some file_path))
  \/ (exists request_url,
        async_render env (template_url c) (data service) = inr request_url
        /\ (e = timeout_error request_url
            \/ e = client_error request_url
            \/ e = decoding_error request_url "JSON"
            \/ e = decoding_error request_url "text"))
  \/ (exists file_path,
        data service !! "file" = Some file_path /\ open_rb env file_path = inl e)
  \/ (exists request, reply (transport env request) = inl e)
  \/ (exists request response,
        reply (transport env request) = inr response
        /\ return_response service = true
        /\ attempted response = inl e).
Proof.
  destruct (async_render env (template_url c) (data service))
    as [e0|request_url] eqn:Hurl.
  { rewrite (handler_url_fails _ _ _ _ Hurl). intros [= <-].
    left. exists (template_url c). by split; [left|]. }
  destruct (data service !! "file") as [file_path|] eqn:Hfile.
  2:{ rewrite (handler_no_file _ _ _ _ Hurl Hfile). intros [= <-].
      right. by left. }
  destruct (path_exists env file_path) eqn:Hexists.
  2:{ rewrite (handler_file_missing _ _ _ _ Hurl _ Hfile Hexists). intros [= <-].
      do 2 right. left. by exists file_path. }
  destruct (resolve_headers env (data service) (template_headers c) ∅)
    as [e0|headers] eqn:Hheaders.
  { rewrite (handler_header_fails _ _ _ _ Hurl _ Hfile Hexists _ Hheaders).
    intros [= <-]. left.
    destruct (resolve_headers_fails _ _ _ _ _ Hheaders)
      as (name & template & Hin & Hfails).
    exists template. split; [|done]. right.
    apply list_elem_of_fmap. by exists (name, template). }
  assert (forall e0 s,
             (dispatch (outer_clauses request_url) e0 s).1 = Raise e ->
             e = e0 \/ e = timeout_error request_url
             \/ e = client_error request_url) as Houter.
  { intros e0 s Hraise.
    destruct (dispatch_outer_outcome request_url e0 s) as (e' & Hraise' & Hcases).
    rewrite Hraise in Hraise'. by injection Hraise' as <-. }
  destruct (open_rb env file_path) as [e0|file] eqn:Hopen.
  { rewrite (handler_open_fails _ _ _ _ Hurl _ Hfile Hexists _ _ Hheaders Hopen).
    intros [->|[->| ->]]%Houter.
    - do 4 right. left. by exists file_path.
    - do 3 right. left. exists request_url. split; [done|]. by left.
    - do 3 right. left. exists request_url. split; [done|]. right. by left. }
  assert (Prepared env c service request_url file_path headers file) as Hprep
    by by constructor.
  rewrite (handler_sends _ _ _ _ _ _ _ Hprep).
  destruct (reply (transport env (sent_request c request_url headers file)))
    as [e0|response] eqn:Hreply.
  { intros [->|[->| ->]]%Houter.
    - do 5 right. left. by eexists.
    - do 3 right. left. exists request_url. split; [done|]. by left.
    - do 3 right. left. exists request_url. split; [done|]. right. by left. }
  rewrite with_response_run.
  destruct (return_response service) eqn:Hwant; cbn [negb]; [|done].
  cbv zeta.
  destruct (attempted response) as [e0|body] eqn:Hattempt; [|done].
  destruct (isinstance e0 cls_JSONDecodeError || isinstance e0 cls_AttributeError).
  { intros [= <-]. do 3 right. left. exists request_url. split; [done|].
    do 2 right. by left. }
  destruct (isinstance e0 cls_UnicodeDecodeError).
  { intros [= <-]. do 3 right. left. exists request_url. split; [done|].
    by do 3 right. }
  intros [->|[->| ->]]%Houter.
  - do 6 right. by eexists _, _.
  - do 3 right. left. exists request_url. split; [done|]. by left.
  - do 3 right. left. exists request_url. split; [done|]. right. by left.
Qed.

Lemma failures_of_an_invocation_witness :
  let env := Faults.unreadable OSError Scenario.ok_json in
  let service := Scenario.call "/root/secret.bin" true in
  (exists file_path,
      data service !! "file" = Some file_path /\ open_rb env file_path = inl OSError).
Proof.
  intros env service.
  destruct (failures_of_an_invocation env (make_closure Scenario.send_photo)
              service OSError eq_refl)
    as [(template & _ & Hrender)|[[_ Htype]|[(path & _ & Hexists & _)
       |[(request_url & _ & [H|[H|[H|H]]])|[Hopen|[[request Hreply]
       |(request & response & Hreply & _ & Hbody)]]]]]];
    try discriminate.
  - exact Hopen.
  - injection Hreply as <-. discriminate.
Defined.

(** X15: an invocation returns only once the session has answered its
    request with a response.  It then returns [None] if no response is
    wanted and, if one is wanted, the dictionary of the decoded body and of
    the status of that very response. *)
Theorem returns_of_an_invocation env c service value :
  (run (async_service_handler env c service)).1 = Return value ->
  exists request response,
    requests (trace (run (async_service_handler env c service)).2) = [request]
    /\ reply (transport env request) = inr response
    /\ (if return_response service
        then exists body,
               attempted response = inr body
               /\ value = Some {| rd_content := body;
                                  rd_status := status response |}
        else value = None).
Proof.
  destruct (handler_cases env c service)
    as [(request_url & file_path & headers & file & Hprep)|((e & Hraise) & _)].
  2:{ by rewrite Hraise. }
  intros Hreturn.
  exists (sent_request c request_url headers file).
  destruct (reply (transport env (sent_request c request_url headers file)))
    as [e|response] eqn:Hreply.
  { rewrite (handler_sends _ _ _ _ _ _ _ Hprep), Hreply in Hreturn.
    destruct (dispatch_outer_outcome request_url e
                (after_request env c request_url file_path headers file))
      as (e' & Hraise & _).
    by rewrite Hraise in Hreturn. }
  exists response.
  split; [exact (requests_sent _ _ _ _ _ _ _ Hprep)|]. split; [done|].
  rewrite (handler_responds _ _ _ _ _ _ _ _ Hprep Hreply) in Hreturn.
  destruct (return_response service); cbn [negb] in Hreturn.
  2:{ by injection Hreturn as <-. }
  cbv zeta in Hreturn.
  destruct (attempted response) as [e|body].
  - destruct (isinstance e cls_JSONDecodeError || isinstance e cls_AttributeError);
      [done|].
    destruct (isinstance e cls_UnicodeDecodeError); [done|].
    destruct (dispatch_outer_outcome request_url e
                (record (after_request env c request_url file_path headers file)
                   [status_log response; read_event response]))
      as (e' & Hraise & _).
    by rewrite Hraise in Hreturn.
  - exists body. split; [done|]. by injection Hreturn as <-.
Qed.

Lemma returns_of_an_invocation_witness :
  let env := Scenario.world true true Scenario.ok_json in
  let service := Scenario.call "/config/www/image.jpg" true in
  exists request response,
    reply (transport env request) = inr response /\ status response = 200.
Proof.
  intros env service.
  destruct (returns_of_an_invocation env (make_closure Scenario.send_photo) service
              (Some {| rd_content := "{id: 1}"; rd_status := 200 |}) eq_refl)
    as (request & response & _ & Hreply & body & _ & Hvalue).
  exists request, response. split; [done|]. by injection Hvalue as _ <-.
Defined.


(** * Reload, with the exceptions it can meet *)

(** The reload handler once more, now with the two places where an
    exception can come up besides the lookup of the section: the awaited
    loader can raise instead of answering, and the registration of a
    command can raise before it registers anything, because
    [aiohttp.BasicAuth] refuses a login that contains a colon.  The new
    section is kept as the list of its items, in the order the handler
    goes through them, since that order decides which commands are
    registered when the loop is cut short. *)

Module Raising.

(** [":" in login]. *)
Fixpoint has_colon (login : string) : bool :=
  match login with
  | EmptyString => false
  | String a rest => String.eqb (String a EmptyString) ":" || has_colon rest
  end.

(** [aiohttp.BasicAuth(username, password=password)]: a [ValueError] for
    a login with a colon. *)
Definition BasicAuth_new (username password : string) : Exception + BasicAuth :=
  if has_colon username then inl ValueError
  else inr {| login := username; password := password |}.

(** The first lines of [async_register_rest_command], up to the closure. *)
Definition make_closure (command_config : CommandConfig) : Exception + Closure :=
  match
    match conf_username command_config with
    | Some username =>
        match BasicAuth_new username (default "" (conf_password command_config)) with
        | inl e => inl e
        | inr basic => inr (Some basic)
        end
    | None => inr None
    end
  with
  | inl e => inl e
  | inr auth =>
      inr {| websession := conf_verify_ssl command_config;
             timeout := conf_timeout command_config;
             method := conf_method command_config;
             template_url := conf_url command_config;
             auth := auth;
             template_headers := default [] (conf_headers command_config);
             content_type_override := conf_content_type command_config |}
  end.

(** [async_register_rest_command]: the closure, then the registration. *)
Definition async_register_rest_command (name : string)
    (command_config : CommandConfig) (services : Registry)
  : Exception + Registry :=
  match make_closure command_config with
  | inl e => inl e
  | inr c =>
      inr (async_register name
             {| service_func := rest_command c;
                schema := None;
                supports_response := SupportsResponse_OPTIONAL |}
             services)
  end.

(** The section of [DOMAIN] in the new configuration, item by item, or
    [None] when the configuration has no such section. *)
Definition DomainSection := option (list (string * CommandConfig)).

(** What awaiting [async_integration_yaml_config] gives: an exception the
    loader raises, [None], or the configuration. *)
Definition Loaded : Type := Exception + option DomainSection.

(** A synchronous statement that can raise. *)
Definition co_try {X R} (statement : Registry -> Exception + Registry)
    (k : Coroutine Registry X R) : Coroutine Registry X R :=
  co_read (fun services =>
    match statement services with
    | inl e => co_finish (Raise e)
    | inr services' => co_sync (fun _ => services') k
    end).

Fixpoint remove_existing {X R} (existing : list string)
    (k : Coroutine Registry X R) : Coroutine Registry X R :=
  match existing with
  | [] => k
  | existing_service :: rest =>
      if decide (existing_service = SERVICE_RELOAD)
      then remove_existing rest k
      else co_sync (async_remove existing_service) (remove_existing rest k)
  end.

Fixpoint register_all {X R} (items : list (string * CommandConfig))
    (k : Coroutine Registry X R) : Coroutine Registry X R :=
  match items with
  | [] => k
  | (name, command_config) :: rest =>
      co_try (async_register_rest_command name command_config)
        (register_all rest k)
  end.

Definition reload_service_handler : Coroutine Registry Loaded unit :=
  co_await (fun conf =>
    match conf with
    | inl e => co_finish (Raise e)
    | inr None => co_finish (Return tt)
    | inr (Some conf) =>
        co_read (fun services =>
          remove_existing (async_services_for_domain services)
            match conf with
            | None => co_finish (Raise KeyError)
            | Some items => register_all items (co_finish (Return tt))
            end)
    end).

(** The second loop without the coroutine: the registry it ends with, and
    the exception that cut it short, if one did. *)
Fixpoint register_each (items : list (string * CommandConfig)) (services : Registry)
  : Registry * option Exception :=
  match items with
  | [] => (services, None)
  | (name, command_config) :: rest =>
      match async_register_rest_command name command_config services with
      | inl e => (services, Some e)
      | inr services' => register_each rest services'
      end
  end.

End Raising.

(** ** The closure and the second loop *)




Section Raising_loops.
Context {X R : Type}.
Implicit Types k : Coroutine Registry X R.

Lemma finish_Raising_remove_existing existing k (x : X) services :
  finish (Raising.remove_existing existing k) x services
  = finish k x (removed existing services).
Proof.
  revert services. induction existing as [|name rest IH]; intros services; simpl.
  - by rewrite removed_nil.
  - destruct (decide (name = SERVICE_RELOAD)) as [->|Hname].
    + by rewrite IH, removed_cons_reload.
    + simpl. by rewrite IH, removed_cons_other.
Qed.


Lemma finish_Raising_register_all items (r : Outcome R) (x : X) services :
  finish (Raising.register_all items (co_finish r)) x services
  = ((Raising.register_each items services).1,
     match (Raising.register_each items services).2 with
     | Some e => Raise e
     | None => r
     end).
Proof.
  revert services. induction items as [|[name command_config] rest IH];
    intros services; simpl; [done|].
  destruct (Raising.async_register_rest_command name command_config services)
    as [e|next]; simpl; [done|]. apply IH.
Qed.

End Raising_loops.


Lemma finish_Raising_reload (pre : Registry) items :
  finish Raising.reload_service_handler (inr (Some (Some items))) pre
  = ((Raising.register_each items
        (filter (fun entry => entry.1 = SERVICE_RELOAD) pre)).1,
     match (Raising.register_each items
              (filter (fun entry => entry.1 = SERVICE_RELOAD) pre)).2 with
     | Some e => Raise e
     | None => Return tt
     end).
Proof.
  simpl. by rewrite finish_Raising_remove_existing, finish_Raising_register_all,
    removed_all.
Qed.

(** A configuration is free of colons when no command of it has a username
    with one: then every closure can be built. *)
Definition colon_free (items : list (string * CommandConfig)) : Prop :=
  Forall (fun item => forall username,
              conf_username item.2 = Some username ->
              Raising.has_colon username = false) items.

Lemma make_closure_colon_free command_config :
  (forall username, conf_username command_config = Some username ->
     Raising.has_colon username = false) ->
  Raising.make_closure command_config = inr (make_closure command_config).
Proof.
  intros Hfree. unfold Raising.make_closure, Raising.BasicAuth_new, make_closure.
  destruct (conf_username command_config) as [username|]; [|done].
  by rewrite (Hfree username eq_refl).
Qed.

Lemma register_each_colon_free items (services : Registry) :
  colon_free items ->
  Raising.register_each items services = (registered items services, None).
Proof.
  intros Hfree. revert services.
  induction Hfree as [|[name command_config] rest Hitem _ IH]; intros services;
    [done|].
  cbn [snd] in Hitem.
  simpl. unfold Raising.async_register_rest_command.
  rewrite (make_closure_colon_free _ Hitem). apply IH.
Qed.

(** On a configuration free of colons the handler does what the model
    without exceptions does. *)
Lemma reload_without_exceptions (pre : Registry) items :
  NoDup items.*1 ->
  colon_free items ->
  finish Raising.reload_service_handler (inr (Some (Some items))) pre
  = finish reload_service_handler (Some (Some (list_to_map items))) pre.
Proof.
  intros Hnodup Hfree.
  rewrite finish_Raising_reload, finish_reload, register_each_colon_free by done.
  cbn [fst snd]. unfold post_reload. by rewrite registered_list_to_map.
Qed.


(** ** Reload is one uninterrupted run, not all or nothing *)



